(** * ai-rename: the document-rename pipeline

    A shallow embedding of the Python sources [ai-rename.py], [scan.py] and
    [ai_rename.py]: the filename validator [clean_filename] in its three
    drafts, the two completion clients [call_llm] and [generate_filename],
    the OCR staging with its on-disk cache, and the relocation step.

    A Python [str] is a sequence of Unicode code points; it is modelled as a
    list of integers, so that every input string is covered, not only the
    ASCII ones. *)

From Stdlib Require Import ZArith Lia Ascii.
From stdpp Require Import base list gmap sets strings pretty sorting.

Local Open Scope Z_scope.

(** ** Python strings *)

Definition pystr := list Z.

Fixpoint py (s : string) : pystr :=
  match s with
  | EmptyString => []
  | String a r => Z.of_nat (nat_of_ascii a) :: py r
  end.

Arguments py : simpl never.

Module Py.

(** Character classes of the regular expressions in [clean_filename]. *)
Definition is_lower (c : Z) : bool := (97 <=? c) && (c <=? 122).
Definition is_upper (c : Z) : bool := (65 <=? c) && (c <=? 90).
Definition is_digit (c : Z) : bool := (48 <=? c) && (c <=? 57).
Definition SPACE : Z := 32.

(** The class [[a-zA-Z0-9 ]]. *)
Definition in_class (c : Z) : bool :=
  is_lower c || is_upper c || is_digit c || (c =? SPACE).

(** [\s] on a [str] pattern and [str.isspace]: the Unicode white space
    code points of CPython. *)
Definition is_space (c : Z) : bool :=
  ((9 <=? c) && (c <=? 13)) || ((28 <=? c) && (c <=? 32))
  || (c =? 133) || (c =? 160) || (c =? 5760)
  || ((8192 <=? c) && (c <=? 8202))
  || (c =? 8232) || (c =? 8233) || (c =? 8239) || (c =? 8287)
  || (c =? 12288).

(** [re.sub(r'[^a-zA-Z0-9 ]', ' ', s)]: one space for each code point
    outside the class. *)
Definition sub_not_in_class (s : pystr) : pystr :=
  map (fun c => if in_class c then c else SPACE) s.

(** [re.sub(r'\s+', ' ', s)]: each maximal run of white space becomes one
    space.  [in_run] tells that the previous code point was white space,
    that is, that the current match of [\s+] is still open. *)
Fixpoint sub_spaces_from (in_run : bool) (s : pystr) : pystr :=
  match s with
  | [] => []
  | c :: r =>
      if is_space c
      then (if in_run then sub_spaces_from true r
            else SPACE :: sub_spaces_from true r)
      else c :: sub_spaces_from false r
  end.

Definition sub_spaces (s : pystr) : pystr := sub_spaces_from false s.

(** [s.lstrip()], [s.rstrip()] and [s.strip()] without argument. *)
Fixpoint lstrip (s : pystr) : pystr :=
  match s with
  | [] => []
  | c :: r => if is_space c then lstrip r else s
  end.

Definition rstrip (s : pystr) : pystr := rev (lstrip (rev s)).

Definition strip (s : pystr) : pystr := rstrip (lstrip s).

(** [re.sub(r'([a-z])([A-Z])', r'\1 \2', s)]: the scan goes left to right;
    a match consumes both letters, otherwise one code point is copied. *)
Fixpoint sub_camel (s : pystr) : pystr :=
  match s with
  | [] => []
  | a :: t =>
      match t with
      | [] => [a]
      | b :: r =>
          if is_lower a && is_upper b
          then a :: SPACE :: b :: sub_camel r
          else a :: sub_camel t
      end
  end.

(** [s.rfind(c)] for a single code point: the last index, or [-1]. *)
Fixpoint rfind_from (i : Z) (c : Z) (s : pystr) : Z :=
  match s with
  | [] => -1
  | x :: r =>
      let j := rfind_from (i + 1) c r in
      if 0 <=? j then j else if x =? c then i else -1
  end.

Definition rfind (c : Z) (s : pystr) : Z := rfind_from 0 c s.

(** Slices [s[:i]] and [s[i:]] for [0 <= i]. *)
Definition slice_to (i : Z) (s : pystr) : pystr := take (Z.to_nat i) s.
Definition slice_from (i : Z) (s : pystr) : pystr := drop (Z.to_nat i) s.

Definition SEP : Z := 47.
Definition EXTSEP : Z := 46.

(** [os.path.splitext] of [posixpath], after [genericpath._splitext]: the
    extension starts at the last dot, when that dot comes after the last
    separator and some code point between the two is not a dot. *)
Definition splitext (p : pystr) : pystr * pystr :=
  let sepIndex := rfind SEP p in
  let dotIndex := rfind EXTSEP p in
  if (sepIndex <? dotIndex)
     && existsb (fun c => negb (c =? EXTSEP))
          (slice_to (dotIndex - (sepIndex + 1)) (slice_from (sepIndex + 1) p))
  then (slice_to dotIndex p, slice_from dotIndex p)
  else (p, []).

(** [os.path.basename]. *)
Definition basename (p : pystr) : pystr := slice_from (rfind SEP p + 1) p.

(** [os.path.join(a, b)] of [posixpath]. *)
Definition join (a b : pystr) : pystr :=
  match b with
  | c :: _ => if c =? SEP then b
              else match last a with
                   | None => b
                   | Some l => if l =? SEP then a ++ b else a ++ SEP :: b
                   end
  | [] => match last a with
          | None => []
          | Some l => if l =? SEP then a else a ++ [SEP]
          end
  end.

(** [s.startswith(t)] and [s.endswith(t)]. *)
Fixpoint startswith (s t : pystr) : bool :=
  match t, s with
  | [], _ => true
  | _ :: _, [] => false
  | y :: t', x :: s' => (x =? y) && startswith s' t'
  end.

Definition endswith (s t : pystr) : bool := startswith (rev s) (rev t).

(** [s.lower()] on the ASCII letters; no other code point lower-cases to
    a character of the extensions the program compares with. *)
Definition lower (s : pystr) : pystr :=
  map (fun c => if is_upper c then c + 32 else c) s.

End Py.

(** ** The filename validator, three drafts *)

(** [ai-rename.py], [FileProcessor.clean_filename]: rejection is the empty
    string. *)
Module AiRename.

Definition clean_filename (filename : pystr) : pystr :=
  let cleaned_content := Py.sub_not_in_class filename in
  let cleaned_content := Py.strip (Py.sub_spaces cleaned_content) in
  let cleaned_content := Py.sub_camel cleaned_content in
  let content_length := Z.of_nat (length cleaned_content) in
  if (15 <=? content_length) && (content_length <=? 100)
  then cleaned_content
  else [].

End AiRename.

(** [scan.py], first draft: the length is taken before [os.path.splitext];
    rejection is [None]. *)
Module Scan.

Definition clean_filename (filename : pystr) : option pystr :=
  let cleaned_content := Py.sub_not_in_class filename in
  let cleaned_content := Py.strip (Py.sub_spaces cleaned_content) in
  let cleaned_content := Py.sub_camel cleaned_content in
  let content_length := Z.of_nat (length cleaned_content) in
  let cleaned_content := fst (Py.splitext cleaned_content) in
  if (15 <=? content_length) && (content_length <=? 100)
  then Some cleaned_content
  else None.

End Scan.

(** [ai_rename.py] (and the second draft in [scan.py]). *)
Module Draft.

Definition clean_filename (filename : pystr) : option pystr :=
  let cleaned_content := Py.sub_not_in_class filename in
  let cleaned_content := Py.strip (Py.sub_spaces cleaned_content) in
  let cleaned_content := Py.sub_camel cleaned_content in
  let content_length := Z.of_nat (length cleaned_content) in
  if (15 <=? content_length) && (content_length <=? 100)
  then Some cleaned_content
  else None.

End Draft.

(** ** The world outside the program *)

(** Bytes of a file. *)
Definition content := list Z.

(** The exception classes the sources raise, catch or let through.  A
    subclass is identified with the class the [except] clauses name. *)
Inductive exn :=
| FileNotFoundError | FileExistsError | IsADirectoryError | ShutilError
| CalledProcessError | UnicodeDecodeError
| KeyError | IndexError | TypeError | AttributeError | AssertionError
| BadRequestError | APIConnectionError | APITimeoutError
| RequestsConnectionError | RequestsTimeout | HTTPError
| JSONDecodeError
| SystemExit.

(** [isinstance(e, OSError)] ([IOError] is the same class). *)
Definition is_OSError (e : exn) : bool :=
  match e with
  | FileNotFoundError | FileExistsError | IsADirectoryError | ShutilError => true
  | _ => false
  end.

(** [isinstance(e, requests.RequestException)]. *)
Definition is_RequestException (e : exn) : bool :=
  match e with
  | RequestsConnectionError | RequestsTimeout | HTTPError => true
  | _ => false
  end.

(** [isinstance(e, Exception)]: all but [SystemExit]. *)
Definition is_Exception (e : exn) : bool :=
  match e with SystemExit => false | _ => true end.

(** A decoded JSON document, as [response.json()] gives it. *)
Inductive json :=
| JNull
| JBool (b : bool)
| JNum (n : Z)
| JStr (s : pystr)
| JArr (l : list json)
| JObj (m : list (pystr * json)).

(** What the completion endpoint does with one request. *)
Inductive reply :=
| NoReply (e : exn)                         (* the transport raises *)
| Reply (status_code : Z) (body : option json).  (* [None]: not JSON *)

(** What [litellm.completion] does with one call. *)
Inductive completion :=
| Raised (e : exn)
| Response (r : json).

(** Standard output of a recognition run: valid UTF-8, or bytes that only
    decode with [errors='ignore']. *)
Inductive decoding := Utf8 (s : pystr) | Invalid (lossy : pystr).

Record recognition := { exit_zero : bool; stdout : decoding }.

(** The external programs, as functions of the bytes they read. *)
Class Tools := {
  (** [magick convert -density 300 f ... out-%d.png]: one image per page,
      none when the conversion fails. *)
  pdf_pages : content -> list content;
  (** [mogrify -contrast -sharpen 0x1 f]: rewrites [f] in place. *)
  enhance : content -> content;
  (** [magick convert f -threshold 50% g]: no output when it fails. *)
  threshold : content -> option content;
  (** [tesseract f stdout -l lang ...]. *)
  tesseract : content -> pystr -> recognition;
  (** [pdftoppm f out -png -f 1 -singlefile] of [scan.py]. *)
  pdftoppm : content -> option content;
  (** [json.loads] of [scan.py]: [None] for [JSONDecodeError]. *)
  json_loads : pystr -> option json
}.

(** One call that leaves the process. *)
Inductive event :=
| Rasterize (src out_prefix : pystr)
| Enhance (path : pystr)
| Binarize (src dst : pystr)
| Recognize (image lang : pystr)
| Pdftoppm (src out_prefix : pystr)
| Completion (model : pystr) (messages : list (pystr * pystr))
| Post (url : pystr) (messages : list (pystr * pystr))
| Makedirs (path : pystr)
| OsRename (src dst : pystr)
| OsRemove (path : pystr)
| ShutilMove (src dst : pystr)
| ShutilCopy2 (src dst : pystr)
| WriteText (path : pystr).

(** The file system (regular files by path, and the directories), the
    replies still to come from the two completion services, and the calls
    made so far, oldest first. *)
Record world := {
  files : gmap pystr content;
  dirs : gset pystr;
  net : list reply;
  llm : list completion;
  trace : list event
}.

Definition set_files (f : gmap pystr content -> gmap pystr content)
    (w : world) : world :=
  {| files := f (files w); dirs := dirs w; net := net w; llm := llm w;
     trace := trace w |}.

Definition set_dirs (f : gset pystr -> gset pystr) (w : world) : world :=
  {| files := files w; dirs := f (dirs w); net := net w; llm := llm w;
     trace := trace w |}.

Definition log_event (e : event) (w : world) : world :=
  {| files := files w; dirs := dirs w; net := net w; llm := llm w;
     trace := trace w ++ [e] |}.

Definition set_net (q : list reply) (w : world) : world :=
  {| files := files w; dirs := dirs w; net := q; llm := llm w;
     trace := trace w |}.

Definition set_llm (q : list completion) (w : world) : world :=
  {| files := files w; dirs := dirs w; net := net w; llm := q;
     trace := trace w |}.

(** ** Effects: state and exceptions *)

Inductive outcome (A : Type) :=
| Val (a : A)
| Exc (e : exn).
Arguments Val {A} a.
Arguments Exc {A} e.

Definition M (A : Type) : Type := world -> outcome A * world.

Definition ret {A} (a : A) : M A := fun w => (Val a, w).

Definition raise {A} (e : exn) : M A := fun w => (Exc e, w).

Definition bind {A B} (m : M A) (k : A -> M B) : M B :=
  fun w => match m w with
           | (Val a, w') => k a w'
           | (Exc e, w') => (Exc e, w')
           end.

(** [try: m  except <classes>: h]. *)
Definition try_except {A} (m : M A) (classes : exn -> bool)
    (h : exn -> M A) : M A :=
  fun w => match m w with
           | (Val a, w') => (Val a, w')
           | (Exc e, w') => if classes e then h e w' else (Exc e, w')
           end.

Definition get {A} (f : world -> A) : M A := fun w => (Val (f w), w).

Definition modify (f : world -> world) : M unit := fun w => (Val tt, f w).

Notation "x <- m ;; k" := (bind m (fun x => k))
  (at level 100, m at next level, right associativity).
Notation "m ;;; k" := (bind m (fun _ => k))
  (at level 100, right associativity).

(** ** System calls on the file system *)

Module Os.

Definition isfile (p : pystr) (w : world) : bool :=
  bool_decide (is_Some (files w !! p)).

Definition isdir (p : pystr) (w : world) : bool :=
  bool_decide (p ∈ dirs w).

(** [os.path.exists]. *)
Definition path_exists (p : pystr) (w : world) : bool :=
  isfile p w || isdir p w.

(** [s] without the prefix [t], when it starts with it. *)
Fixpoint strip_prefix (t s : pystr) : option pystr :=
  match t, s with
  | [], _ => Some s
  | _ :: _, [] => None
  | y :: t', x :: s' => if x =? y then strip_prefix t' s' else None
  end.

(** The name of [p] inside the directory [d], when [p] is an entry of
    [d]. *)
Definition entry_name (d p : pystr) : option pystr :=
  match strip_prefix (d ++ [Py.SEP]) p with
  | Some (c :: n) =>
      if bool_decide (Py.SEP ∈ c :: n) then None else Some (c :: n)
  | _ => None
  end.

(** The names of the entries of [d], in some order. *)
Definition entries (d : pystr) (w : world) : list pystr :=
  omap (entry_name d) (elements (dom (files w) ∪ dirs w)).

(** [os.listdir(d)]: an [OSError] when [d] is not a directory. *)
Definition listdir (d : pystr) : M (list pystr) :=
  i <- get (isdir d) ;;
  if i then get (entries d) else raise FileNotFoundError.

(** [os.makedirs(p, exist_ok=True)]; the parents are taken to exist. *)
Definition makedirs (p : pystr) : M unit :=
  modify (log_event (Makedirs p)) ;;;
  f <- get (isfile p) ;;
  if f then raise FileExistsError
  else modify (set_dirs (fun d => {[p]} ∪ d)).

(** The move of the regular file [src] onto the path [dst], which
    replaces what was there; the program only relocates regular files,
    and the directory of a destination is taken to exist. *)
Definition rename_file (src dst : pystr) : M unit :=
  c <- get (fun w => files w !! src) ;;
  d <- get (isdir dst) ;;
  match c with
  | None => raise FileNotFoundError
  | Some c =>
      if d then raise IsADirectoryError
      else modify (set_files (fun f => <[dst := c]> (delete src f)))
  end.

(** [os.rename(src, dst)]. *)
Definition rename (src dst : pystr) : M unit :=
  modify (log_event (OsRename src dst)) ;;;
  rename_file src dst.

(** [os.remove(p)]. *)
Definition remove (p : pystr) : M unit :=
  modify (log_event (OsRemove p)) ;;;
  f <- get (isfile p) ;;
  if f then modify (set_files (delete p)) else raise FileNotFoundError.

(** [shutil.copy2(src, dst)]: into [dst] when it is a directory. *)
Definition copy2 (src dst : pystr) : M unit :=
  modify (log_event (ShutilCopy2 src dst)) ;;;
  c <- get (fun w => files w !! src) ;;
  d <- get (isdir dst) ;;
  match c with
  | None => raise FileNotFoundError
  | Some c =>
      let dst := if d then Py.join dst (Py.basename src) else dst in
      modify (set_files (<[dst := c]>))
  end.

(** [shutil.move(src, dst)]: into [dst] when it is a directory, and then
    never onto an existing entry. *)
Definition move (src dst : pystr) : M unit :=
  modify (log_event (ShutilMove src dst)) ;;;
  d <- get (isdir dst) ;;
  if d then
    let real_dst := Py.join dst (Py.basename src) in
    e <- get (path_exists real_dst) ;;
    if e then raise ShutilError else rename_file src real_dst
  else rename_file src dst.

End Os.

(** ** Subscripts on decoded JSON *)

(** [d[k]] on a configuration entry that may be missing. *)
Definition subscript {A} (v : option A) : M A :=
  match v with
  | Some a => ret a
  | None => raise KeyError
  end.

(** The value of the key [k] in the items of a [dict]; of two items with
    the same key the later one counts. *)
Fixpoint dict_get (k : pystr) (m : list (pystr * json)) : option json :=
  match m with
  | [] => None
  | (k', v) :: r =>
      match dict_get k r with
      | Some x => Some x
      | None => if bool_decide (k' = k) then Some v else None
      end
  end.

(** Reading a document has no effect but its value or its exception. *)
Definition and_then {A B} (o : outcome A) (k : A -> outcome B)
    : outcome B :=
  match o with
  | Val a => k a
  | Exc e => Exc e
  end.

Definition lift {A} (o : outcome A) : M A := fun w => (o, w).

(** [j[k]] for a string [k]. *)
Definition getitem (k : pystr) (j : json) : outcome json :=
  match j with
  | JObj m => match dict_get k m with
              | Some v => Val v
              | None => Exc KeyError
              end
  | _ => Exc TypeError
  end.

(** [j[0]]. *)
Definition getitem0 (j : json) : outcome json :=
  match j with
  | JArr (x :: _) => Val x
  | JArr [] => Exc IndexError
  | JStr (c :: _) => Val (JStr [c])
  | JStr [] => Exc IndexError
  | JObj _ => Exc KeyError
  | _ => Exc TypeError
  end.

(** [j.strip()]. *)
Definition str_strip (j : json) : outcome pystr :=
  match j with
  | JStr s => Val (Py.strip s)
  | _ => Exc AttributeError
  end.

(** [r['choices'][0]['message']['content']]. *)
Definition message_content (r : json) : outcome json :=
  and_then (getitem (py "choices") r) (fun c =>
  and_then (getitem0 c) (fun c0 =>
  and_then (getitem (py "message") c0) (fun m =>
  getitem (py "content") m))).

(** [r['choices'][0]['message']['content'].strip()]. *)
Definition message_text (r : json) : outcome pystr :=
  and_then (message_content r) str_strip.

(** ** The two completion services *)

(** [litellm.completion(model=..., messages=[{"role": "user", "content":
    prompt}], ...)]: the next pending outcome; with none pending the
    service cannot be reached.  The response object is read through
    subscripts only, and is modelled by the document it wraps. *)
Definition litellm_completion (model prompt : pystr) : M json :=
  modify (log_event (Completion model [(py "user", prompt)])) ;;;
  q <- get llm ;;
  match q with
  | [] => raise APIConnectionError
  | Raised e :: q' => modify (set_llm q') ;;; raise e
  | Response r :: q' => modify (set_llm q') ;;; ret r
  end.

(** [requests.post(url, ..., data=json.dumps(payload))]: the status code
    and the decoded body of the next pending reply. *)
Definition requests_post (url : pystr) (messages : list (pystr * pystr))
    : M (Z * option json) :=
  modify (log_event (Post url messages)) ;;;
  q <- get net ;;
  match q with
  | [] => raise RequestsConnectionError
  | NoReply e :: q' => modify (set_net q') ;;; raise e
  | Reply status_code body :: q' =>
      modify (set_net q') ;;; ret (status_code, body)
  end.

(** [response.raise_for_status()]. *)
Definition raise_for_status (status_code : Z) : M unit :=
  if (400 <=? status_code) && (status_code <? 600)
  then raise HTTPError else ret tt.

(** [response.json()]. *)
Definition response_json (body : option json) : M json :=
  match body with
  | Some j => ret j
  | None => raise JSONDecodeError
  end.

(** ** The external programs on the file system *)

Section Programs.
Context `{Tools}.

(** The pages [prefix-i.png], [prefix-(i+1).png], ... *)
Fixpoint write_pages (prefix : pystr) (i : nat) (pages : list content)
    (f : gmap pystr content) : gmap pystr content :=
  match pages with
  | [] => f
  | c :: r =>
      write_pages prefix (S i) r
        (<[prefix ++ py "-" ++ py (pretty i) ++ py ".png" := c]> f)
  end.

(** [magick convert -density 300 src ... prefix-%d.png]; the exit status
    is not looked at. *)
Definition rasterize (src prefix : pystr) : M unit :=
  modify (log_event (Rasterize src prefix)) ;;;
  c <- get (fun w => files w !! src) ;;
  match c with
  | None => ret tt
  | Some c => modify (set_files (write_pages prefix 0 (pdf_pages c)))
  end.

(** [mogrify -contrast -sharpen 0x1 path]. *)
Definition mogrify (path : pystr) : M unit :=
  modify (log_event (Enhance path)) ;;;
  c <- get (fun w => files w !! path) ;;
  match c with
  | None => ret tt
  | Some c => modify (set_files (<[path := enhance c]>))
  end.

(** [magick convert src -threshold 50% dst]. *)
Definition binarize (src dst : pystr) : M unit :=
  modify (log_event (Binarize src dst)) ;;;
  c <- get (fun w => files w !! src) ;;
  match c ≫= threshold with
  | None => ret tt
  | Some c' => modify (set_files (<[dst := c']>))
  end.

(** [subprocess.run(['tesseract', image, 'stdout', '-l', lang, ...],
    capture_output=True, text=True, check=True).stdout]: the output is
    decoded before the exit status is looked at. *)
Definition tesseract_text (image lang : pystr) : M pystr :=
  modify (log_event (Recognize image lang)) ;;;
  c <- get (fun w => files w !! image) ;;
  match c with
  | None => raise CalledProcessError
  | Some c =>
      match stdout (tesseract c lang) with
      | Invalid _ => raise UnicodeDecodeError
      | Utf8 s =>
          if exit_zero (tesseract c lang) then ret s
          else raise CalledProcessError
      end
  end.

(** The same run without [text=True], and
    [.stdout.decode('utf-8', errors='ignore')]. *)
Definition tesseract_lossy (image lang : pystr) : M pystr :=
  modify (log_event (Recognize image lang)) ;;;
  c <- get (fun w => files w !! image) ;;
  match c with
  | None => raise CalledProcessError
  | Some c =>
      if exit_zero (tesseract c lang)
      then ret (match stdout (tesseract c lang) with
                | Invalid s => s
                | Utf8 s => s
                end)
      else raise CalledProcessError
  end.

(** [subprocess.check_output(['tesseract', image, '-', '-l', lang])
    .decode('utf-8')] of [scan.py]: here the exit status comes first. *)
Definition tesseract_check_output (image lang : pystr) : M pystr :=
  modify (log_event (Recognize image lang)) ;;;
  c <- get (fun w => files w !! image) ;;
  match c with
  | None => raise CalledProcessError
  | Some c =>
      if exit_zero (tesseract c lang)
      then match stdout (tesseract c lang) with
           | Invalid _ => raise UnicodeDecodeError
           | Utf8 s => ret s
           end
      else raise CalledProcessError
  end.

End Programs.


(** ** [ai-rename.py]: the class [FileProcessor] *)

(** The command-line flags the methods read. *)
Record Namespace := {
  dry_run : bool;
  rename : bool;
  move : bool;
  copy : bool;
  summarize : bool
}.

(** [config.yaml]; an absent key is [None]. *)
Record Config := {
  MODEL : option pystr;
  API_BASE : option pystr;
  API_TOKEN : option pystr;
  LANGUAGE : option pystr;
  ORIG_SUBDIR : option pystr;
  prompts_filename_generation : option pystr;
  prompts_summarization : option pystr
}.

Record Self := {
  config : Config;
  args : Namespace;
  ai_rename_dir : pystr
}.

(** What [setup_directories] returns. *)
Record Dirs := {
  DONE_DIR : option pystr;
  ORIG_DIR : option pystr
}.

(** [os.path.join(d, name)] for a [d] that may be [None]. *)
Definition join_opt (d : option pystr) (name : pystr) : M pystr :=
  match d with
  | Some d => ret (Py.join d name)
  | None => raise TypeError
  end.

(** [sorted] on strings: the order of the code points. *)
Fixpoint str_le (s t : pystr) : bool :=
  match s, t with
  | [], _ => true
  | _ :: _, [] => false
  | x :: s', y :: t' => (x <? y) || ((x =? y) && str_le s' t')
  end.

Definition sorted (l : list pystr) : list pystr :=
  merge_sort (fun s t => Is_true (str_le s t)) l.

(** [s.lower().endswith(ext)]. *)
Definition has_extension (s ext : pystr) : bool :=
  Py.endswith (Py.lower s) ext.

Module FileProcessor.
Section Methods.
Context `{Tools}.
Variable self : Self.

(** [call_llm], one round of [for attempt in range(2)]: [None] stands for
    [continue]. *)
Definition call_llm_attempt (model prompt : pystr) (attempt : Z)
    : M (option pystr) :=
  try_except
    (response <- litellm_completion (py "huggingface/" ++ model) prompt ;;
     llm_response <- lift (message_text response) ;;
     ret (Some llm_response))
    (fun e => match e with
              | BadRequestError | KeyError | IndexError => true
              | _ => false
              end)
    (fun e => match e with
              | BadRequestError =>
                  if attempt =? 0 then ret None else ret (Some [])
              | _ => ret (Some [])
              end).

Fixpoint call_llm_loop (model prompt : pystr) (attempts : list Z)
    : M pystr :=
  match attempts with
  | [] => ret []
  | attempt :: rest =>
      r <- call_llm_attempt model prompt attempt ;;
      match r with
      | Some llm_response => ret llm_response
      | None => call_llm_loop model prompt rest
      end
  end.

Definition call_llm (prompt : pystr) : M pystr :=
  let model := default (py "gpt2") (MODEL (config self)) in
  call_llm_loop model prompt [0; 1].

(** [generate_filename]: the prompt is read before the [try]. *)
Definition generate_filename (ocr_text : pystr) : M pystr :=
  filename_prompt <- subscript (prompts_filename_generation (config self)) ;;
  let messages :=
    [(py "system", filename_prompt);
     (py "user", py "Here is the file content: " ++ ocr_text)] in
  try_except
    (let api_base :=
       default (py "https://api-inference.huggingface.co/models/gpt2")
               (API_BASE (config self)) in
     _ <- subscript (API_TOKEN (config self)) ;;
     response <- requests_post api_base messages ;;
     raise_for_status response.1 ;;;
     response_json <- response_json response.2 ;;
     lift (message_text response_json))
    (fun e => is_RequestException e
              || match e with JSONDecodeError | KeyError => true
                 | _ => false end)
    (fun _ => ret []).

(** [move_or_copy_file]. *)
Definition move_or_copy_file (file_path new_filepath : pystr)
    (orig_dir : option pystr) (file_name : pystr) : M unit :=
  if dry_run (args self) then ret tt
  else
    try_except
      (if move (args self) then Os.move file_path new_filepath
       else if copy (args self) then
         Os.copy2 file_path new_filepath ;;;
         dst <- join_opt orig_dir file_name ;;
         Os.move file_path dst
       else Os.rename file_path new_filepath)
      is_OSError
      (fun _ => ret tt).

(** [rename_file]. *)
Definition rename_file (file_path file_name : pystr)
    (done_dir orig_dir : option pystr) (ocr_text : pystr) : M unit :=
  ai_generated_filename <- generate_filename ocr_text ;;
  match ai_generated_filename with
  | [] => ret tt
  | _ :: _ =>
      match AiRename.clean_filename ai_generated_filename with
      | [] => ret tt
      | cleaned_filename =>
          let file_extension := (Py.splitext file_name).2 in
          let new_filename := cleaned_filename ++ file_extension in
          new_filepath <- join_opt done_dir new_filename ;;
          try_except
            (move_or_copy_file file_path new_filepath orig_dir file_name)
            is_OSError
            (fun _ => ret tt)
      end
  end.

(** The recognition step shared by the two OCR methods: [on_error] is
    what the [CalledProcessError] handler leaves in [ocr_text]. *)
Definition recognize (bw_image : pystr) : M (option pystr) :=
  lang <- subscript (LANGUAGE (config self)) ;;
  try_except
    (s <- tesseract_text bw_image lang ;; ret (Some s))
    (fun e => match e with
              | CalledProcessError | UnicodeDecodeError => true
              | _ => false
              end)
    (fun e => match e with
              | CalledProcessError => ret None
              | _ => s <- tesseract_lossy bw_image lang ;; ret (Some s)
              end).

(** The filter of [perform_pdf_ocr] on the names of the work directory. *)
Definition cached_images (base_name : pystr) : M (list pystr) :=
  l <- Os.listdir (ai_rename_dir self) ;;
  ret (List.filter
         (fun f => Py.startswith f (Py.basename base_name)
                   && Py.endswith f (py ".png")) l).

(** The loop of [perform_pdf_ocr] over the sorted page images. *)
Fixpoint ocr_pages (images : list pystr) (ocr_text : pystr) : M pystr :=
  match images with
  | [] => ret ocr_text
  | image_file :: rest =>
      let page_image := Py.join (ai_rename_dir self) image_file in
      let bw_image := page_image ++ py "_bw.png" in
      e <- get (Os.path_exists bw_image) ;;
      (if e then ret tt
       else mogrify page_image ;;; binarize page_image bw_image) ;;;
      r <- recognize bw_image ;;
      ocr_pages rest (match r with
                      | Some s => ocr_text ++ s ++ [10; 10]
                      | None => ocr_text
                      end)
  end.

Definition perform_pdf_ocr (file_path : pystr) : M pystr :=
  let base_name := (Py.splitext file_path).1 in
  cached <- cached_images base_name ;;
  cached <- (match cached with
             | [] =>
                 rasterize file_path
                   (ai_rename_dir self ++ py "/" ++ Py.basename base_name) ;;;
                 cached_images base_name
             | _ :: _ => ret cached
             end) ;;
  ocr_pages (sorted cached) [].

Definition perform_image_ocr (file_path : pystr) : M pystr :=
  let base_name := (Py.splitext file_path).1 in
  let bw_file_path :=
    Py.join (ai_rename_dir self) (Py.basename base_name ++ py "_bw.png") in
  e <- get (Os.path_exists bw_file_path) ;;
  (if e then ret tt
   else mogrify file_path ;;; binarize file_path bw_file_path) ;;;
  r <- recognize bw_file_path ;;
  ret (default [] r).

Definition perform_ocr (file_path : pystr) : M pystr :=
  ocr_text <-
    (if has_extension file_path (py ".pdf") then perform_pdf_ocr file_path
     else if has_extension file_path (py ".jpg")
             || has_extension file_path (py ".png")
     then perform_image_ocr file_path
     else ret []) ;;
  ret (Py.strip ocr_text).

(** [process_pdf] and [process_image] have the same body. *)
Definition process_pdf (file_path file_name : pystr)
    (done_dir orig_dir : option pystr) : M unit :=
  ocr_text <- perform_ocr file_path ;;
  match ocr_text with
  | [] => ret tt
  | _ :: _ =>
      if rename (args self)
      then rename_file file_path file_name done_dir orig_dir ocr_text
      else ret tt
  end.

Definition process_image := process_pdf.


(** [create_directory]: any failure ends the program. *)
Definition create_directory (dir_path : pystr) : M unit :=
  try_except (Os.makedirs dir_path) is_Exception
    (fun _ => raise SystemExit).

(** [setup_directories]: the flag [dry_run] is not looked at. *)
Definition setup_directories (base_dir : pystr) : M Dirs :=
  let done_dir := Py.join base_dir (py "done") in
  let orig_dir :=
    Py.join base_dir (default (py "orig") (ORIG_SUBDIR (config self))) in
  (if rename (args self) || move (args self)
   then create_directory done_dir ;;; create_directory orig_dir
   else ret tt) ;;;
  ret {| DONE_DIR := if rename (args self) || move (args self)
                     then Some done_dir else None;
         ORIG_DIR := if rename (args self) || move (args self)
                     then Some orig_dir else None |}.

(** [save_summary]: the text is written into the work directory. *)
Definition save_summary (file_path file_name summary : pystr) : M unit :=
  let summary_filename := (Py.splitext file_name).1 ++ py "_summary.txt" in
  let summary_filepath := Py.join (ai_rename_dir self) summary_filename in
  modify (log_event (WriteText summary_filepath)) ;;;
  d <- get (Os.isdir summary_filepath) ;;
  if d then raise IsADirectoryError
  else modify (set_files (<[summary_filepath := summary]>)).

(** [generate_summary]: every [Exception] is logged and dropped. *)
Definition generate_summary (file_path file_name : pystr) : M unit :=
  try_except
    (ocr_text <- perform_ocr file_path ;;
     prompt <- subscript (prompts_summarization (config self)) ;;
     summary <- call_llm (prompt ++ py ":" ++ ocr_text) ;;
     match summary with
     | [] => ret tt
     | _ :: _ => save_summary file_path file_name summary
     end)
    is_Exception
    (fun _ => ret tt).

(** [self.extension_to_function]. *)
Definition extension_to_function (file_extension : pystr)
    : option (pystr -> pystr -> option pystr -> option pystr -> M unit) :=
  if bool_decide (file_extension = py ".pdf") then Some process_pdf
  else if bool_decide (file_extension = py ".jpg") then Some process_image
  else if bool_decide (file_extension = py ".png") then Some process_image
  else None.

Definition process_file (file_path file_name : pystr)
    (process_func : pystr -> pystr -> option pystr -> option pystr -> M unit)
    (dirs : Dirs) : M unit :=
  try_except
    (process_func file_path file_name (DONE_DIR dirs) (ORIG_DIR dirs))
    is_Exception (fun _ => ret tt) ;;;
  if summarize (args self)
  then try_except (generate_summary file_path file_name)
         is_Exception (fun _ => ret tt)
  else ret tt.

Definition process_single_file (dir_path file_name : pystr) (dirs : Dirs)
    : M unit :=
  if (bool_decide (DONE_DIR dirs = None) || bool_decide (ORIG_DIR dirs = None))
     && (rename (args self) || move (args self))
  then ret tt
  else
    let file_path := Py.join dir_path file_name in
    let file_extension := Py.lower (Py.splitext file_name).2 in
    f <- get (Os.isfile file_path) ;;
    match extension_to_function file_extension with
    | Some process_func =>
        if f then process_file file_path file_name process_func dirs
        else ret tt
    | None => ret tt
    end.

(** The inner loop of [process_files] over the files of one directory. *)
Fixpoint process_each (root : pystr) (dirs : Dirs) (files : list pystr)
    : M unit :=
  match files with
  | [] => ret tt
  | file_name :: rest =>
      process_single_file root file_name dirs ;;;
      process_each root dirs rest
  end.

(** [process_files], on what [os.walk(dir_path)] yields: each directory
    with the names of its files. *)
Fixpoint process_files (walk : list (pystr * list pystr)) : M unit :=
  match walk with
  | [] => ret tt
  | (root, files) :: rest =>
      dirs <- setup_directories root ;;
      process_each root dirs files ;;;
      process_files rest
  end.

(** [count_files]. *)
Definition count_files (dir_path : pystr) : M nat :=
  l <- Os.listdir dir_path ;;
  w <- get id ;;
  ret (length
         (List.filter
            (fun file_name =>
               Os.isfile (Py.join dir_path file_name) w
               && (has_extension file_name (py ".pdf")
                   || has_extension file_name (py ".jpg")
                   || has_extension file_name (py ".png"))) l)).

(** [t in s] on strings. *)
Fixpoint contains (s t : pystr) : bool :=
  Py.startswith s t
  || match s with
     | [] => false
     | _ :: r => contains r t
     end.

Definition test_llm_connectivity : M bool :=
  response <- call_llm
    (py "Test prompt: Please respond with 'Test successful'") ;;
  ret (contains response (py "Test successful")).

End Methods.
End FileProcessor.

(** ** [scan.py], first draft: the script *)

Module ScanScript.
Section Script.
Context `{Tools}.
Variable DIR : pystr.
Variable KEEP_ORIGINAL : bool.

Definition LANGUAGE : pystr := py "eng".
Definition ORIG_SUBDIR : pystr := py "orig".
Definition DONE_DIR : pystr := Py.join DIR (py "done").
Definition ORIG_DIR : pystr := Py.join DIR ORIG_SUBDIR.

(** [subprocess.run(['pdftoppm', src, prefix, '-png', '-f', '1',
    '-singlefile'])]: the first page goes to [prefix.png]. *)
Definition run_pdftoppm (src prefix : pystr) : M unit :=
  modify (log_event (Pdftoppm src prefix)) ;;;
  c <- get (fun w => files w !! src) ;;
  match c ≫= pdftoppm with
  | None => ret tt
  | Some img => modify (set_files (<[prefix ++ py ".png" := img]>))
  end.

Definition perform_ocr (file_path : pystr) : M pystr :=
  if has_extension file_path (py ".pdf") then
    let image_file := (Py.splitext file_path).1 ++ py ".png" in
    run_pdftoppm file_path (Py.splitext file_path).1 ;;;
    f <- get (Os.isfile image_file) ;;
    if f then
      ocr_text <- tesseract_check_output image_file LANGUAGE ;;
      Os.remove image_file ;;;
      ret (Py.strip ocr_text)
    else ret (Py.strip [])
  else if has_extension file_path (py ".jpg")
          || has_extension file_path (py ".png") then
    try_except
      (ocr_text <- tesseract_check_output file_path LANGUAGE ;;
       ret (Py.strip ocr_text))
      (fun e => match e with CalledProcessError => true | _ => false end)
      (fun _ => ret [])
  else ret (Py.strip []).

(** [d.get(k, '')] on the items of a [dict]. *)
Definition dict_get_default (k : pystr) (m : list (pystr * json)) : json :=
  default (JStr []) (dict_get k m).

(** [generate_filename]: [None], or the pair of the file name and the
    justification. *)
Definition generate_filename (ocr_text : pystr)
    : M (option (pystr * json)) :=
  response <- requests_post (py "http://localhost:1234/v1/chat/completions")
    [(py "system", py "Generate a suitable filename for the following file content that briefly summarizes the content, using no more than 120 characters. Ensure your response is a valid JSON object containing 'filename' and 'justification' fields. Respond only with valid JSON. Do not write an introduction or summary.");
     (py "user", py "Here is the file content: " ++ ocr_text)] ;;
  match response.2 with
  | None => ret None
  | Some response_json =>
      if response.1 =? 200 then
        ai_response <-
          try_except
            (ai_response <- lift (message_content response_json) ;;
             ai_response <-
               match ai_response with
               | JStr s => match json_loads s with
                           | Some j => ret j
                           | None => raise JSONDecodeError
                           end
               | _ => raise TypeError
               end ;;
             match ai_response with
             | JObj m => ret (Some m)
             | _ => raise AssertionError
             end)
            (fun e => match e with
                      | JSONDecodeError | AssertionError => true
                      | _ => false
                      end)
            (fun _ => ret None) ;;
        match ai_response with
        | None => ret None
        | Some m =>
            filename <- lift (str_strip (dict_get_default (py "filename") m)) ;;
            ret (Some (filename, dict_get_default (py "justification") m))
        end
      else ret None
  end.

(** The [while os.path.exists(new_filepath)] loop; [fuel] bounds the
    number of rounds, and [None] tells that it ran out. *)
Fixpoint free_name (fuel : nat) (new_filename : pystr) (counter : nat)
    (w : world) : option pystr :=
  match fuel with
  | O => None
  | S fuel =>
      if Os.path_exists (Py.join DONE_DIR new_filename) w then
        let (base_name, ext) := Py.splitext new_filename in
        free_name fuel (base_name ++ py "_" ++ py (pretty counter) ++ ext)
          (S counter) w
      else Some new_filename
  end.

(** One more round than there are paths is enough, see
    [free_name_terminates]. *)
Definition enough_fuel (w : world) : nat :=
  S (length (elements (dom (files w) ∪ dirs w))).

(** The two relocations of the loop body. *)
Definition relocate (file_path file_name new_filepath : pystr) : M unit :=
  if KEEP_ORIGINAL then
    Os.copy2 file_path new_filepath ;;;
    Os.move file_path (Py.join ORIG_DIR file_name)
  else Os.move file_path new_filepath.

(** The body of [for file_name in os.listdir(DIR)]. *)
Definition process_entry (file_name : pystr) : M unit :=
  let file_path := Py.join DIR file_name in
  f <- get (Os.isfile file_path) ;;
  if f && has_extension file_path (py ".pdf") then
    ocr_text <- perform_ocr file_path ;;
    match Py.strip ocr_text with
    | _ :: _ =>
        r <- generate_filename ocr_text ;;
        match r with
        | None => raise TypeError   (* [None] cannot be unpacked *)
        | Some (ai_generated_filename, justification) =>
            match ai_generated_filename with
            | [] => ret tt
            | _ :: _ =>
                match Scan.clean_filename ai_generated_filename with
                | Some (c :: cleaned_filename) =>
                    let file_extension := (Py.splitext file_name).2 in
                    let new_filename :=
                      (c :: cleaned_filename) ++ file_extension in
                    w <- get id ;;
                    match free_name (enough_fuel w) new_filename 1 w with
                    | Some new_filename =>
                        relocate file_path file_name
                          (Py.join DONE_DIR new_filename)
                    | None => ret tt
                    end
                | _ => ret tt
                end
            end
        end
    | [] =>
        relocate file_path file_name (Py.join DONE_DIR file_name)
    end
  else ret tt.

Fixpoint process_entries (names : list pystr) : M unit :=
  match names with
  | [] => ret tt
  | file_name :: rest => process_entry file_name ;;; process_entries rest
  end.

(** The script from the creation of [done/] and [orig/] on; the names
    are listed once, before the first file is processed. *)
Definition main : M unit :=
  d <- get (Os.isdir DIR) ;;
  if d then
    Os.makedirs DONE_DIR ;;;
    Os.makedirs ORIG_DIR ;;;
    names <- Os.listdir DIR ;;
    process_entries names
  else raise SystemExit.

End Script.
End ScanScript.


(** ** Vocabulary of the statements *)


(** The request [call_llm] sends. *)
Definition llm_request (self : Self) (prompt : pystr) : event :=
  Completion (py "huggingface/" ++ default (py "gpt2") (MODEL (config self)))
    [(py "user", prompt)].

(** The request [generate_filename] sends. *)
Definition filename_request (self : Self) (filename_prompt ocr_text : pystr)
    : event :=
  Post (default (py "https://api-inference.huggingface.co/models/gpt2")
          (API_BASE (config self)))
    [(py "system", filename_prompt);
     (py "user", py "Here is the file content: " ++ ocr_text)].

(** The exceptions of the classes [cls] become the absent result ['']. *)
Definition absent_on (cls : exn -> bool) (o : outcome pystr)
    : outcome pystr :=
  match o with
  | Val s => Val s
  | Exc e => if cls e then Val [] else Exc e
  end.

Definition caught_by_call_llm (e : exn) : bool :=
  match e with
  | BadRequestError | KeyError | IndexError => true
  | _ => false
  end.

Definition caught_by_generate_filename (e : exn) : bool :=
  is_RequestException e
  || match e with JSONDecodeError | KeyError => true | _ => false end.

(** What one completion call and the reading of its response give. *)
Definition completion_outcome (c : option completion) : outcome pystr :=
  match c with
  | None => Exc APIConnectionError
  | Some (Raised e) => Exc e
  | Some (Response j) => message_text j
  end.

(** What one HTTP request and the reading of its reply give. *)
Definition reply_outcome (c : option reply) : outcome pystr :=
  match c with
  | None => Exc RequestsConnectionError
  | Some (NoReply e) => Exc e
  | Some (Reply status_code body) =>
      if (400 <=? status_code) && (status_code <? 600) then Exc HTTPError
      else match body with
           | None => Exc JSONDecodeError
           | Some j => message_text j
           end
  end.

(** The number of requests of one [call_llm]: two when the first one is
    answered by [BadRequestError], else one. *)
Definition llm_requests (q : list completion) : nat :=
  match q with
  | Raised BadRequestError :: _ => 2
  | _ => 1
  end.

(** Sample inputs of the examples. *)
Definition self0 : Self :=
  {| config := {| MODEL := None; API_BASE := None;
                  API_TOKEN := Some (py "token"); LANGUAGE := Some (py "eng");
                  ORIG_SUBDIR := None;
                  prompts_filename_generation := Some (py "Name this file");
                  prompts_summarization := Some (py "Summarize") |};
     args := {| dry_run := false; rename := true; move := false;
                copy := false; summarize := false |};
     ai_rename_dir := py "/tmp/ai_rename_0" |}.

Definition world0 : world :=
  {| files := ∅; dirs := ∅; net := []; llm := []; trace := [] |}.

Definition good_response (name : pystr) : json :=
  JObj [(py "choices",
         JArr [JObj [(py "message", JObj [(py "content", JStr name)])]])].







(** The calls that relocate or delete a file. *)
Definition is_relocation (e : event) : bool :=
  match e with
  | OsRename _ _ | ShutilMove _ _ | ShutilCopy2 _ _ | OsRemove _ => true
  | _ => false
  end.

Definition relocations (w : world) : list event :=
  List.filter is_relocation (trace w).

(** From [w] to [w'] no file was relocated, no directory was created but
    those in [D], and outside the work directory [T] every file is where it
    was, with the same bytes, or, for the paths in [E], with bytes that
    [mogrify] has rewritten some number of times. *)
Record kept `{Tools} (T : pystr) (E D : pystr -> Prop) (w w' : world)
    : Prop := {
  kept_relocations : relocations w' = relocations w;
  kept_dirs_old : dirs w ⊆ dirs w';
  kept_dirs_new : forall d, d ∈ dirs w' -> d ∈ dirs w \/ D d;
  kept_files : forall p, Py.startswith p T = false ->
    exists n, (n = 0%nat \/ E p) /\
      files w' !! p = Nat.iter n enhance <$> files w !! p
}.

(** [m] relates the world before to the world after by [R], and a value
    it returns satisfies [Q]. *)
Definition hoare {A} (R : world -> world -> Prop) (Q : A -> Prop)
    (m : M A) : Prop :=
  forall w, R w (m w).2 /\ forall a, (m w).1 = Val a -> Q a.

Definition keeps {A} (R : world -> world -> Prop) (m : M A) : Prop :=
  hoare R (fun _ => True) m.

(** A name is safe when [os.path.join] keeps the directory before it. *)
Definition relative (n : pystr) : Prop := head n <> Some Py.SEP.

(* ================================================================== *)
(** * Properties *)

(** ** The validator produces canonical names *)

(** No two neighbours of [s] are related by [R]. *)
Fixpoint no_adj (R : Z -> Z -> bool) (s : pystr) : bool :=
  match s with
  | [] => true
  | a :: t =>
      match head t with Some b => negb (R a b) | None => true end
      && no_adj R t
  end.

Definition both_space (a b : Z) : bool := Py.is_space a && Py.is_space b.
Definition lower_upper (a b : Z) : bool := Py.is_lower a && Py.is_upper b.

(** The first and the last code point of [s], if any, are not white space. *)
Definition trimmed (s : pystr) : Prop :=
  (forall c, head s = Some c -> Py.is_space c = false) /\
  (forall c, last s = Some c -> Py.is_space c = false).

Definition in_class_all (s : pystr) : Prop :=
  Forall (fun c => Py.in_class c = true) s.

Lemma in_class_cases c :
  Py.in_class c = true <->
  (48 <= c <= 57) \/ (65 <= c <= 90) \/ (97 <= c <= 122) \/ c = 32.
Proof.
  unfold Py.in_class, Py.is_lower, Py.is_upper, Py.is_digit, Py.SPACE.
  rewrite !orb_true_iff, !andb_true_iff, !Z.leb_le, Z.eqb_eq. lia.
Qed.

Lemma in_class_is_space c :
  Py.in_class c = true -> Py.is_space c = (c =? 32).
Proof.
  intros H%in_class_cases. unfold Py.is_space.
  destruct (Z.eqb_spec c 32) as [->|Hne]; [reflexivity|].
  repeat match goal with
         | |- context [?a <=? ?b] => destruct (Z.leb_spec a b)
         | |- context [?a =? ?b] => destruct (Z.eqb_spec a b)
         end; simpl; try reflexivity; lia.
Qed.

Lemma lower_not_space c : Py.is_lower c = true -> Py.is_space c = false.
Proof.
  unfold Py.is_lower, Py.is_space. rewrite andb_true_iff, !Z.leb_le. intros.
  repeat match goal with
         | |- context [?a <=? ?b] => destruct (Z.leb_spec a b)
         | |- context [?a =? ?b] => destruct (Z.eqb_spec a b)
         end; simpl; try reflexivity; lia.
Qed.

Lemma upper_not_space c : Py.is_upper c = true -> Py.is_space c = false.
Proof.
  unfold Py.is_upper, Py.is_space. rewrite andb_true_iff, !Z.leb_le. intros.
  repeat match goal with
         | |- context [?a <=? ?b] => destruct (Z.leb_spec a b)
         | |- context [?a =? ?b] => destruct (Z.eqb_spec a b)
         end; simpl; try reflexivity; lia.
Qed.

Lemma space_in_class : Py.in_class Py.SPACE = true.
Proof. reflexivity. Qed.

Lemma space_is_space : Py.is_space Py.SPACE = true.
Proof. reflexivity. Qed.

(** *** Step 1 *)

Lemma sub_not_in_class_all s : in_class_all (Py.sub_not_in_class s).
Proof.
  unfold in_class_all, Py.sub_not_in_class. apply Forall_map, Forall_forall.
  intros c _. simpl. destruct (Py.in_class c) eqn:E; [exact E | reflexivity].
Qed.

Lemma sub_not_in_class_id s :
  in_class_all s -> Py.sub_not_in_class s = s.
Proof.
  unfold in_class_all, Py.sub_not_in_class.
  induction 1 as [|c s Hc _ IH]; simpl; [reflexivity|].
  rewrite Hc. f_equal. exact IH.
Qed.

Lemma sub_not_in_class_length s : length (Py.sub_not_in_class s) = length s.
Proof. unfold Py.sub_not_in_class. apply length_map. Qed.

(** *** Step 2: collapsing white space and trimming *)

Lemma no_adj_cons R a s :
  no_adj R (a :: s) =
  match head s with Some b => negb (R a b) | None => true end && no_adj R s.
Proof. reflexivity. Qed.

Lemma no_adj_app R x y : no_adj R (x ++ y) = true ->
  no_adj R x = true /\ no_adj R y = true.
Proof.
  induction x as [|a x IH]; simpl; [auto|].
  rewrite !andb_true_iff. intros [Ha Hxy]. destruct (IH Hxy) as [Hx Hy].
  split; [split|]; auto.
  destruct x as [|b x]; simpl in *; [reflexivity | exact Ha].
Qed.

Lemma sub_spaces_from_all b s :
  in_class_all s -> in_class_all (Py.sub_spaces_from b s).
Proof.
  unfold in_class_all. intros H. revert b.
  induction H as [|c s Hc _ IH]; intros b; simpl; [constructor|].
  destruct (Py.is_space c); [destruct b|]; auto using space_in_class.
Qed.

Lemma sub_spaces_from_head b s c :
  head (Py.sub_spaces_from b s) = Some c -> Py.is_space c = true ->
  b = false.
Proof.
  revert b. induction s as [|a s IH]; intros b; simpl; [discriminate|].
  destruct (Py.is_space a) eqn:Ea.
  - destruct b; [|reflexivity]. intros H1 H2.
    specialize (IH true H1 H2). discriminate.
  - simpl. intros [= ->] H. congruence.
Qed.

Lemma sub_spaces_from_no_adj b s :
  no_adj both_space (Py.sub_spaces_from b s) = true.
Proof.
  revert b. induction s as [|a s IH]; intros b; simpl; [reflexivity|].
  destruct (Py.is_space a) eqn:Ea.
  - destruct b; [apply IH|]. rewrite no_adj_cons, IH, andb_true_r.
    destruct (head (Py.sub_spaces_from true s)) as [c|] eqn:Hc; [|reflexivity].
    unfold both_space. rewrite space_is_space. simpl.
    destruct (Py.is_space c) eqn:Ec; [|reflexivity].
    pose proof (sub_spaces_from_head _ _ _ Hc Ec). discriminate.
  - rewrite no_adj_cons, IH, andb_true_r. unfold both_space. rewrite Ea.
    simpl. destruct (head _); reflexivity.
Qed.

Lemma sub_spaces_from_id b s :
  in_class_all s -> no_adj both_space s = true ->
  (b = true -> forall c, head s = Some c -> Py.is_space c = false) ->
  Py.sub_spaces_from b s = s.
Proof.
  unfold in_class_all. intros H. revert b.
  induction H as [|a s Ha Hs IH]; intros b Hadj Hb; simpl; [reflexivity|].
  rewrite no_adj_cons, andb_true_iff in Hadj. destruct Hadj as [Hab Hadj].
  destruct (Py.is_space a) eqn:Ea.
  - destruct b; [rewrite (Hb eq_refl a eq_refl) in Ea; discriminate|].
    rewrite (in_class_is_space _ Ha) in Ea. apply Z.eqb_eq in Ea. subst a.
    f_equal. apply IH; [exact Hadj|]. intros _ c Hc. rewrite Hc in Hab.
    unfold both_space in Hab. change (Py.is_space 32) with true in Hab.
    simpl in Hab. destruct (Py.is_space c); [discriminate | reflexivity].
  - f_equal. apply IH; [exact Hadj | discriminate].
Qed.

Lemma lstrip_suffix s : exists k, s = k ++ Py.lstrip s.
Proof.
  induction s as [|c s [k Hk]]; simpl; [exists []; reflexivity|].
  destruct (Py.is_space c).
  - exists (c :: k). simpl. f_equal. exact Hk.
  - exists []. reflexivity.
Qed.

Lemma lstrip_head s c :
  head (Py.lstrip s) = Some c -> Py.is_space c = false.
Proof.
  induction s as [|a s IH]; simpl; [discriminate|].
  destruct (Py.is_space a) eqn:Ea; [exact IH|].
  simpl. intros [= ->]. exact Ea.
Qed.

Lemma lstrip_id s :
  (forall c, head s = Some c -> Py.is_space c = false) -> Py.lstrip s = s.
Proof.
  destruct s as [|a s]; simpl; [reflexivity|]. intros H.
  rewrite (H a eq_refl). reflexivity.
Qed.

Lemma lstrip_snoc x c :
  Py.lstrip (x ++ [c]) =
  match Py.lstrip x with
  | [] => if Py.is_space c then [] else [c]
  | l => l ++ [c]
  end.
Proof.
  induction x as [|a x IH]; simpl; [reflexivity|].
  destruct (Py.is_space a); [exact IH | reflexivity].
Qed.

Lemma rstrip_cons c r :
  Py.rstrip (c :: r) =
  match Py.rstrip r with
  | [] => if Py.is_space c then [] else [c]
  | l => c :: l
  end.
Proof.
  unfold Py.rstrip. simpl rev. rewrite lstrip_snoc.
  destruct (Py.lstrip (rev r)) as [|a l]; simpl.
  - destruct (Py.is_space c); reflexivity.
  - rewrite rev_app_distr. simpl.
    destruct (rev l ++ [a]) eqn:E; [destruct (rev l); discriminate|].
    reflexivity.
Qed.

Lemma rstrip_prefix s : exists k, s = Py.rstrip s ++ k.
Proof.
  induction s as [|c s [k Hk]]; [exists []; reflexivity|].
  rewrite rstrip_cons. destruct (Py.rstrip s) as [|a l].
  - destruct (Py.is_space c); [exists (c :: s) | exists s]; reflexivity.
  - exists k. simpl. f_equal. exact Hk.
Qed.

Lemma rstrip_last s c :
  last (Py.rstrip s) = Some c -> Py.is_space c = false.
Proof.
  unfold Py.rstrip. intros H. apply (lstrip_head (rev s)).
  destruct (Py.lstrip (rev s)) as [|a l]; [discriminate|].
  simpl in *. rewrite last_snoc in H. exact H.
Qed.

Lemma rstrip_head s c :
  (forall a, head s = Some a -> Py.is_space a = false) ->
  head (Py.rstrip s) = Some c -> Py.is_space c = false.
Proof.
  destruct s as [|a s]; [discriminate|]. intros H. rewrite rstrip_cons.
  specialize (H a eq_refl).
  destruct (Py.rstrip s); [rewrite H|]; simpl; intros [= ->]; exact H.
Qed.

Lemma rstrip_id s :
  (forall c, last s = Some c -> Py.is_space c = false) -> Py.rstrip s = s.
Proof.
  induction s as [|a s IH]; [reflexivity|]. intros H. rewrite rstrip_cons.
  destruct s as [|b s].
  - simpl. rewrite (H a eq_refl). reflexivity.
  - rewrite IH; [reflexivity|]. intros c Hc. apply H. exact Hc.
Qed.

Lemma strip_trimmed s : trimmed (Py.strip s).
Proof.
  unfold Py.strip. split.
  - intros c. apply rstrip_head. apply lstrip_head.
  - apply rstrip_last.
Qed.

Lemma strip_id s : trimmed s -> Py.strip s = s.
Proof.
  intros [Hh Hl]. unfold Py.strip. rewrite (lstrip_id _ Hh).
  apply rstrip_id, Hl.
Qed.

Lemma strip_infix s : exists k1 k2, s = k1 ++ Py.strip s ++ k2.
Proof.
  unfold Py.strip. destruct (lstrip_suffix s) as [k1 H1].
  destruct (rstrip_prefix (Py.lstrip s)) as [k2 H2].
  exists k1, k2. rewrite <- H2. exact H1.
Qed.

Lemma strip_all s : in_class_all s -> in_class_all (Py.strip s).
Proof.
  unfold in_class_all. destruct (strip_infix s) as (k1 & k2 & E).
  intros H. rewrite E in H.
  apply Forall_app in H as [_ H]. apply Forall_app in H as [H _]. exact H.
Qed.

Lemma strip_no_adj R s : no_adj R s = true -> no_adj R (Py.strip s) = true.
Proof.
  destruct (strip_infix s) as (k1 & k2 & E). intros H. rewrite E in H.
  apply no_adj_app in H as [_ H]. apply no_adj_app in H as [H _]. exact H.
Qed.

(** *** Step 3: camel-case splitting *)

Lemma pystr_ind2 (P : pystr -> Prop) :
  P [] -> (forall a, P [a]) ->
  (forall a b r, P r -> P (b :: r) -> P (a :: b :: r)) ->
  forall s, P s.
Proof.
  intros H0 H1 H2 s. cut (P s /\ forall a, P (a :: s)); [tauto|].
  induction s as [|b s [IHs IHc]]; split; auto.
Qed.

Lemma sub_camel_head s : head (Py.sub_camel s) = head s.
Proof.
  destruct s as [|a [|b r]]; simpl; try reflexivity.
  destruct (Py.is_lower a && Py.is_upper b); reflexivity.
Qed.

Lemma sub_camel_last s : last (Py.sub_camel s) = last s.
Proof.
  induction s as [| a | a b r IHr IHt] using pystr_ind2; try reflexivity.
  change (Py.sub_camel (a :: b :: r)) with
    (if Py.is_lower a && Py.is_upper b
     then a :: Py.SPACE :: b :: Py.sub_camel r
     else a :: Py.sub_camel (b :: r)).
  destruct (Py.is_lower a && Py.is_upper b).
  - change (last (a :: Py.SPACE :: b :: Py.sub_camel r))
      with (last (b :: Py.sub_camel r)).
    change (last (a :: b :: r)) with (last (b :: r)).
    rewrite (last_cons b (Py.sub_camel r)), (last_cons b r), IHr.
    reflexivity.
  - rewrite (last_cons a (Py.sub_camel (b :: r))), IHt.
    rewrite (last_cons a (b :: r)). reflexivity.
Qed.

Lemma sub_camel_all s : in_class_all s -> in_class_all (Py.sub_camel s).
Proof.
  unfold in_class_all.
  induction s as [| a | a b r IHr IHt] using pystr_ind2; intros H; auto.
  change (Py.sub_camel (a :: b :: r)) with
    (if Py.is_lower a && Py.is_upper b
     then a :: Py.SPACE :: b :: Py.sub_camel r
     else a :: Py.sub_camel (b :: r)).
  inversion H as [|? ? Ha Hb]; subst. inversion Hb as [|? ? Hb' Hr]; subst.
  destruct (Py.is_lower a && Py.is_upper b);
    repeat constructor; auto using space_in_class.
Qed.

Lemma sub_camel_no_lower_upper s :
  no_adj lower_upper (Py.sub_camel s) = true.
Proof.
  induction s as [| a | a b r IHr IHt] using pystr_ind2; try reflexivity.
  change (Py.sub_camel (a :: b :: r)) with
    (if Py.is_lower a && Py.is_upper b
     then a :: Py.SPACE :: b :: Py.sub_camel r
     else a :: Py.sub_camel (b :: r)).
  destruct (Py.is_lower a && Py.is_upper b) eqn:E.
  - apply andb_true_iff in E as [Ea Eb].
    rewrite !no_adj_cons, IHr. cbn [head].
    assert (Hb : Py.is_lower b = false).
    { unfold Py.is_upper, Py.is_lower in *.
      apply andb_true_iff in Eb as [?%Z.leb_le ?%Z.leb_le].
      apply andb_false_iff. left. apply Z.leb_gt. lia. }
    unfold lower_upper. rewrite Hb.
    change (Py.is_upper Py.SPACE) with false.
    change (Py.is_lower Py.SPACE) with false. rewrite andb_false_r. simpl.
    destruct (head (Py.sub_camel r)); reflexivity.
  - rewrite no_adj_cons, IHt, sub_camel_head. cbn [head].
    unfold lower_upper. rewrite E. reflexivity.
Qed.

Lemma sub_camel_no_both_space s :
  no_adj both_space s = true -> no_adj both_space (Py.sub_camel s) = true.
Proof.
  induction s as [| a | a b r IHr IHt] using pystr_ind2; intros H; auto.
  change (Py.sub_camel (a :: b :: r)) with
    (if Py.is_lower a && Py.is_upper b
     then a :: Py.SPACE :: b :: Py.sub_camel r
     else a :: Py.sub_camel (b :: r)).
  rewrite no_adj_cons in H. cbn [head] in H.
  apply andb_true_iff in H as [Hab Hbr].
  destruct (Py.is_lower a && Py.is_upper b) eqn:E.
  - apply andb_true_iff in E as [Ea%lower_not_space Eb%upper_not_space].
    rewrite no_adj_cons in Hbr. apply andb_true_iff in Hbr as [_ Hr].
    rewrite !no_adj_cons, (IHr Hr). cbn [head]. unfold both_space.
    rewrite Ea, Eb. simpl.
    destruct (head (Py.sub_camel r)); reflexivity.
  - rewrite no_adj_cons, sub_camel_head, (IHt Hbr). cbn [head].
    rewrite Hab. reflexivity.
Qed.

Lemma sub_camel_id s :
  no_adj lower_upper s = true -> Py.sub_camel s = s.
Proof.
  induction s as [| a | a b r IHr IHt] using pystr_ind2; intros H; auto.
  change (Py.sub_camel (a :: b :: r)) with
    (if Py.is_lower a && Py.is_upper b
     then a :: Py.SPACE :: b :: Py.sub_camel r
     else a :: Py.sub_camel (b :: r)).
  rewrite no_adj_cons in H. cbn [head] in H.
  apply andb_true_iff in H as [Hab Hbr]. unfold lower_upper in Hab.
  apply negb_true_iff in Hab. rewrite Hab, (IHt Hbr). reflexivity.
Qed.

Lemma sub_camel_trimmed s : trimmed s -> trimmed (Py.sub_camel s).
Proof.
  unfold trimmed. rewrite sub_camel_head, sub_camel_last. auto.
Qed.

(** *** The canonical form and the pipeline *)

(** The three rewriting steps of [clean_filename], before the length test. *)
Definition cleaned (filename : pystr) : pystr :=
  Py.sub_camel (Py.strip (Py.sub_spaces (Py.sub_not_in_class filename))).

Record canonical (s : pystr) : Prop := {
  canonical_class : in_class_all s;
  canonical_trimmed : trimmed s;
  canonical_spaces : no_adj both_space s = true;
  canonical_camel : no_adj lower_upper s = true
}.

Lemma cleaned_canonical filename : canonical (cleaned filename).
Proof.
  unfold cleaned. split.
  - apply sub_camel_all, strip_all, sub_spaces_from_all, sub_not_in_class_all.
  - apply sub_camel_trimmed, strip_trimmed.
  - apply sub_camel_no_both_space, strip_no_adj, sub_spaces_from_no_adj.
  - apply sub_camel_no_lower_upper.
Qed.

Lemma canonical_cleaned s : canonical s -> cleaned s = s.
Proof.
  intros [Hc Ht Hs Hl]. unfold cleaned.
  rewrite (sub_not_in_class_id _ Hc). unfold Py.sub_spaces.
  rewrite (sub_spaces_from_id false s Hc Hs) by discriminate.
  rewrite (strip_id _ Ht). apply sub_camel_id, Hl.
Qed.

Lemma no_dot_in_class s : in_class_all s -> forall c, c ∈ s -> c <> 46 /\ c <> 47.
Proof.
  unfold in_class_all. rewrite Forall_forall. intros H c Hc.
  specialize (H c Hc). apply in_class_cases in H. lia.
Qed.

(** *** [os.path.splitext] after step 1 *)

Lemma rfind_from_absent i c s : c ∉ s -> Py.rfind_from i c s = -1.
Proof.
  revert i. induction s as [|x s IH]; intros i H; simpl; [reflexivity|].
  rewrite IH by (intros ?; apply H; right; assumption). simpl.
  destruct (Z.eqb_spec x c) as [->|]; [|reflexivity].
  exfalso. apply H. left.
Qed.

Lemma splitext_in_class s : in_class_all s -> Py.splitext s = (s, []).
Proof.
  intros H. unfold Py.splitext, Py.rfind.
  rewrite !rfind_from_absent; [reflexivity| |];
    intros Hc; destruct (no_dot_in_class s H _ Hc); auto.
Qed.

Lemma clean_filename_main_cleaned filename :
  AiRename.clean_filename filename =
  if (15 <=? Z.of_nat (length (cleaned filename)))
     && (Z.of_nat (length (cleaned filename)) <=? 100)
  then cleaned filename else [].
Proof. reflexivity. Qed.

Lemma clean_filename_draft_cleaned filename :
  Draft.clean_filename filename =
  if (15 <=? Z.of_nat (length (cleaned filename)))
     && (Z.of_nat (length (cleaned filename)) <=? 100)
  then Some (cleaned filename) else None.
Proof. reflexivity. Qed.

Lemma clean_filename_scan_cleaned filename :
  Scan.clean_filename filename =
  if (15 <=? Z.of_nat (length (cleaned filename)))
     && (Z.of_nat (length (cleaned filename)) <=? 100)
  then Some (cleaned filename) else None.
Proof.
  unfold Scan.clean_filename. fold (cleaned filename).
  rewrite (splitext_in_class _ (canonical_class _ (cleaned_canonical filename))).
  reflexivity.
Qed.

Lemma length_test_spec (s : pystr) :
  (15 <=? Z.of_nat (length s)) && (Z.of_nat (length s) <=? 100) = true <->
  (15 <= length s <= 100)%nat.
Proof. rewrite andb_true_iff, !Z.leb_le. lia. Qed.

(** An accepted output, of either draft, is the cleaned input and it passes
    the length test. *)
Lemma accepted_inv filename r :
  AiRename.clean_filename filename = r /\ r <> [] \/
  Scan.clean_filename filename = Some r ->
  r = cleaned filename /\ (15 <= length r <= 100)%nat.
Proof.
  rewrite clean_filename_main_cleaned, clean_filename_scan_cleaned.
  destruct ((15 <=? Z.of_nat (length (cleaned filename)))
            && (Z.of_nat (length (cleaned filename)) <=? 100)) eqn:E.
  - apply length_test_spec in E.
    intros [[<- _]|[= <-]]; split; auto.
  - intros [[<- H]|[=]]. congruence.
Qed.

(** C1. Whenever [clean_filename] (the [ai-rename.py] method or the
    [scan.py] function) accepts an input, with output [r], then the length
    of [r] lies in [[15,100]], [r] holds only ASCII letters, digits and
    spaces, [r] neither starts nor ends with white space, and validating
    [r] again returns [r]. *)
Theorem clean_filename_accepted_fixed_point (filename r : pystr) :
  AiRename.clean_filename filename = r /\ r <> [] \/
  Scan.clean_filename filename = Some r ->
  (15 <= length r <= 100)%nat /\
  Forall (fun c => (48 <= c <= 57) \/ (65 <= c <= 90) \/
                   (97 <= c <= 122) \/ c = 32) r /\
  (forall c, head r = Some c -> Py.is_space c = false) /\
  (forall c, last r = Some c -> Py.is_space c = false) /\
  AiRename.clean_filename r = r /\
  Scan.clean_filename r = Some r.
Proof.
  intros H. apply accepted_inv in H as [-> Hlen].
  pose proof (cleaned_canonical filename) as Hc.
  destruct Hc as [Hclass [Hhead Hlast] Hsp Hlu].
  assert (Hid : cleaned (cleaned filename) = cleaned filename).
  { apply canonical_cleaned. split; [| split |..]; assumption. }
  split; [exact Hlen|]. split.
  { eapply Forall_impl; [exact Hclass|]. intros c. apply in_class_cases. }
  split; [exact Hhead|]. split; [exact Hlast|].
  rewrite clean_filename_main_cleaned, clean_filename_scan_cleaned, Hid.
  apply length_test_spec in Hlen. rewrite Hlen. split; reflexivity.
Qed.

Lemma clean_filename_accepted_fixed_point_witness :
  AiRename.clean_filename (py "camel Case Filename")
  = py "camel Case Filename" /\
  Scan.clean_filename (py "camel Case Filename")
  = Some (py "camel Case Filename").
Proof.
  refine (let H := clean_filename_accepted_fixed_point
                     (py "camelCaseFilename") (py "camel Case Filename") _ in
          conj (proj1 (proj2 (proj2 (proj2 (proj2 H)))))
               (proj2 (proj2 (proj2 (proj2 (proj2 H)))))).
  left. split; [reflexivity | discriminate].
Defined.

(** C2 (the code at the failing input). The dot of the extension is turned
    into a space by the first substitution, so nothing is left for
    [os.path.splitext] to strip and the extension stays as a last word. *)
Theorem clean_filename_keeps_extension :
  AiRename.clean_filename (py "FilenameWithExtension.pdf")
  = py "Filename With Extension pdf" /\
  Scan.clean_filename (py "FilenameWithExtension.pdf")
  = Some (py "Filename With Extension pdf") /\
  Draft.clean_filename (py "FilenameWithExtension.pdf")
  = Some (py "Filename With Extension pdf").
Proof. repeat split; reflexivity. Qed.



(** C10. The three drafts of [clean_filename] agree on every input, up to
    the rejection sentinel: [os.path.splitext] finds no dot in the cleaned
    text, the [scan.py] draft equals the [ai_rename.py] one, and the
    [ai-rename.py] method returns the same string, or [''] where the others
    return [None]; [''] is never an accepted output. *)
Theorem clean_filename_drafts_agree (filename : pystr) :
  Py.splitext (cleaned filename) = (cleaned filename, []) /\
  Scan.clean_filename filename = Draft.clean_filename filename /\
  AiRename.clean_filename filename
  = default [] (Draft.clean_filename filename) /\
  Draft.clean_filename filename <> Some [].
Proof.
  split.
  { apply splitext_in_class, canonical_class, cleaned_canonical. }
  rewrite clean_filename_scan_cleaned, clean_filename_draft_cleaned,
    clean_filename_main_cleaned.
  destruct ((15 <=? Z.of_nat (length (cleaned filename)))
            && (Z.of_nat (length (cleaned filename)) <=? 100)) eqn:E;
    repeat split; try discriminate.
  apply length_test_spec in E. intros [= H]. rewrite H in E. simpl in E. lia.
Qed.

(** ** Running the effects *)

Lemma bind_unfold {A B} (m : M A) (k : A -> M B) w :
  bind m k w = match m w with
               | (Val a, w') => k a w'
               | (Exc e, w') => (Exc e, w')
               end.
Proof. reflexivity. Qed.

Ltac run := unfold bind, modify, get, ret, raise, try_except in *; simpl in *.












(** ** The two completion clients *)

Lemma call_llm_attempt_spec model prompt attempt w :
  FileProcessor.call_llm_attempt model prompt attempt w =
  (match completion_outcome (head (llm w)) with
   | Val s => Val (Some s)
   | Exc BadRequestError => Val (if attempt =? 0 then None else Some [])
   | Exc KeyError | Exc IndexError => Val (Some [])
   | Exc e => Exc e
   end,
   set_llm (tail (llm w))
     (log_event (Completion (py "huggingface/" ++ model) [(py "user", prompt)])
        w)).
Proof.
  unfold FileProcessor.call_llm_attempt, litellm_completion, lift.
  destruct w as [f d n l t].
  run. unfold set_llm, log_event; simpl. destruct l as [|[e|j] q]; simpl.
  - reflexivity.
  - destruct e; simpl; try reflexivity. destruct (attempt =? 0); reflexivity.
  - destruct (message_text j) as [s|e]; simpl; [reflexivity|].
    destruct e; simpl; try reflexivity. destruct (attempt =? 0); reflexivity.
Qed.

Lemma generate_filename_spec (self : Self) (ocr_text p t : pystr) w :
  prompts_filename_generation (config self) = Some p ->
  API_TOKEN (config self) = Some t ->
  FileProcessor.generate_filename self ocr_text w =
  (absent_on caught_by_generate_filename (reply_outcome (head (net w))),
   set_net (tail (net w)) (log_event (filename_request self p ocr_text) w)).
Proof.
  intros Hp Ht.
  unfold FileProcessor.generate_filename, requests_post, raise_for_status,
    response_json, lift, filename_request, subscript.
  rewrite Hp, Ht. destruct w as [f d n l tr].
  run. unfold set_net, log_event; simpl.
  destruct n as [|[e|status_code body] q]; simpl.
  - reflexivity.
  - unfold caught_by_generate_filename.
    destruct (is_RequestException e || _); reflexivity.
  - destruct ((400 <=? status_code) && (status_code <? 600)); simpl;
      [reflexivity|].
    destruct body as [j|]; simpl; [|reflexivity].
    destruct (message_text j) as [s|e]; simpl; [reflexivity|].
    unfold caught_by_generate_filename.
    destruct (is_RequestException e || _); reflexivity.
Qed.

Lemma message_text_exn j e :
  message_text j = Exc e ->
  e = KeyError \/ e = IndexError \/ e = TypeError \/ e = AttributeError.
Proof.
  unfold message_text, message_content, and_then, getitem, getitem0,
    str_strip.
  intros E. repeat case_match; simplify_eq; auto.
Qed.

Local Opaque FileProcessor.call_llm_attempt.

(** C4, amended. [call_llm] sends its request once, or twice with the same
    payload when the first call raises [BadRequestError]; the result is the
    text of the last answer, [''] when the last call raises
    [BadRequestError], [KeyError] or [IndexError] or the response lacks a
    key or an index, and every other exception (a network failure, a
    [TypeError] or [AttributeError] of the reading) is raised to the
    caller.  [generate_filename] sends its request once and never again:
    a transport failure, a status of 400 to 599, a body that is not JSON
    and a missing key give [''] after that one request; without an API
    token no request is sent, and without the prompt [KeyError] is
    raised. *)
Theorem retry_policy (self : Self) (prompt ocr_text : pystr) (w : world) :
  (let r := FileProcessor.call_llm self prompt w in
   let n := llm_requests (llm w) in
   trace r.2 = trace w ++ replicate n (llm_request self prompt) /\
   llm r.2 = drop n (llm w) /\
   r.1 = absent_on caught_by_call_llm
           (completion_outcome (llm w !! (n - 1)%nat))) /\
  (let r := FileProcessor.generate_filename self ocr_text w in
   match prompts_filename_generation (config self),
         API_TOKEN (config self) with
   | None, _ => r = (Exc KeyError, w)
   | Some _, None => r = (Val [], w)
   | Some p, Some _ =>
       trace r.2 = trace w ++ [filename_request self p ocr_text] /\
       net r.2 = tail (net w) /\
       r.1 = absent_on caught_by_generate_filename
               (reply_outcome (head (net w)))
   end).
Proof.
  split.
  - unfold FileProcessor.call_llm, FileProcessor.call_llm_loop, llm_request.
    rewrite !bind_unfold, call_llm_attempt_spec.
    destruct (llm w) as [|c q] eqn:Hq; simpl.
    { rewrite ?Hq. auto. }
    destruct c as [e|j]; simpl.
    + destruct e; simpl; rewrite ?Hq; auto.
      rewrite bind_unfold, call_llm_attempt_spec. simpl. rewrite ?Hq.
      destruct q as [|c' q']; simpl; [rewrite <- app_assoc; auto|].
      destruct c' as [e'|j']; simpl.
      * destruct e'; simpl; rewrite <- app_assoc; auto.
      * destruct (message_text j') as [s|e'] eqn:E; simpl;
          [rewrite <- app_assoc; auto|].
        destruct e'; simpl; rewrite <- app_assoc; auto.
    + rewrite ?Hq. destruct (message_text j) as [s|e] eqn:E; simpl; [auto|].
      apply message_text_exn in E.
      destruct E as [-> | [-> | [-> | ->]]]; simpl; auto.
  - destruct (prompts_filename_generation (config self)) as [p|] eqn:Hp.
    + destruct (API_TOKEN (config self)) as [t|] eqn:Ht.
      * rewrite (generate_filename_spec self ocr_text p t w Hp Ht).
        simpl. auto.
      * unfold FileProcessor.generate_filename, subscript.
        rewrite Hp, Ht. reflexivity.
    + unfold FileProcessor.generate_filename, subscript.
      rewrite Hp. destruct (API_TOKEN (config self)); reflexivity.
Qed.

Local Transparent FileProcessor.call_llm_attempt.

(** C4, as stated, fails: a network failure of [call_llm] is raised, not
    turned into the absent result; and [generate_filename] does not retry
    after a bad request (status 400): the second reply is left pending. *)
Lemma retry_policy_counterexample :
  (FileProcessor.call_llm self0 (py "prompt")
     (set_llm [Raised APIConnectionError] world0)).1
  = Exc APIConnectionError /\
  (let r := FileProcessor.generate_filename self0 (py "text")
              (set_net [Reply 400 None;
                        Reply 200 (Some (good_response (py "Annual Report 2023")))]
                 world0) in
   r.1 = Val [] /\
   trace r.2 = [filename_request self0 (py "Name this file") (py "text")] /\
   net r.2 = [Reply 200 (Some (good_response (py "Annual Report 2023")))]).
Proof. vm_compute. auto. Qed.

(** ** Collisions of target names *)

Lemma rfind_from_range i c s :
  Py.rfind_from i c s = -1 \/
  i <= Py.rfind_from i c s < i + Z.of_nat (length s).
Proof.
  revert i. induction s as [|x s IH]; intros i; simpl; [auto|].
  destruct (IH (i + 1)) as [->|Hr].
  - simpl. destruct (x =? c); [right|left]; lia.
  - destruct (0 <=? Py.rfind_from (i + 1) c s).
    + right. lia.
    + destruct (x =? c); [right|left]; lia.
Qed.








Section FreeName.
Variable DIR : pystr.
Variable w : world.



End FreeName.

Ltac run_all :=
  unfold bind, modify, get, ret, raise, try_except, lift,
    log_event, set_files, set_dirs, set_net, set_llm,
    Os.isdir, Os.isfile, Os.path_exists in *;
  simpl in *.









(** ** What a run leaves in place *)

Section Hoare.
Context (R : world -> world -> Prop) `{!PreOrder R}.

Lemma hoare_ret {A} (Q : A -> Prop) a : Q a -> hoare R Q (ret a).
Proof. intros H w. simpl. split; [reflexivity|]. intros ? [= <-]. exact H. Qed.

Lemma hoare_raise {A} (Q : A -> Prop) e : hoare R Q (raise e).
Proof. intros w. simpl. split; [reflexivity|]. discriminate. Qed.

Lemma hoare_lift {A} (Q : A -> Prop) o :
  (forall a, o = Val a -> Q a) -> hoare R Q (lift o).
Proof. intros H w. simpl. split; [reflexivity|]. exact H. Qed.

Lemma hoare_get {A} (Q : A -> Prop) (f : world -> A) :
  (forall w, Q (f w)) -> hoare R Q (get f).
Proof. intros H w. simpl. split; [reflexivity|]. intros ? [= <-]. apply H. Qed.

Lemma hoare_modify (Q : unit -> Prop) f :
  (forall w, R w (f w)) -> Q tt -> hoare R Q (modify f).
Proof. intros H Ht w. simpl. split; [apply H|]. intros []. auto. Qed.

Lemma hoare_bind {A B} (Q : A -> Prop) (Q' : B -> Prop) (m : M A)
    (k : A -> M B) :
  hoare R Q m -> (forall a, Q a -> hoare R Q' (k a)) ->
  hoare R Q' (bind m k).
Proof.
  intros Hm Hk w. unfold bind. destruct (Hm w) as [H1 H2].
  destruct (m w) as [[a|e] w1]; simpl in *.
  - destruct (Hk a (H2 a eq_refl) w1) as [H3 H4].
    split; [etransitivity; eassumption|exact H4].
  - split; [exact H1|discriminate].
Qed.

Lemma hoare_try {A} (Q Q0 : A -> Prop) (m : M A) cls h :
  hoare R Q0 m -> (forall a, Q0 a -> Q a) -> (forall e, hoare R Q (h e)) ->
  hoare R Q (try_except m cls h).
Proof.
  intros Hm HQ Hh w. unfold try_except. destruct (Hm w) as [H1 H2].
  destruct (m w) as [[a|e] w1]; simpl in *.
  - split; [exact H1|]. intros ? [= <-]. auto.
  - destruct (cls e); simpl; [|split; [exact H1|discriminate]].
    destruct (Hh e w1) as [H3 H4].
    split; [etransitivity; eassumption|exact H4].
Qed.

Lemma hoare_weaken {A} (Q Q' : A -> Prop) (m : M A) :
  hoare R Q m -> (forall a, Q a -> Q' a) -> hoare R Q' m.
Proof. intros Hm HQ w. destruct (Hm w). split; auto. Qed.

Lemma keeps_hoare {A} (Q : A -> Prop) (m : M A) :
  hoare R Q m -> keeps R m.
Proof. intros Hm. eapply hoare_weaken; [exact Hm|auto]. Qed.

Lemma keeps_bind {A B} (m : M A) (k : A -> M B) :
  keeps R m -> (forall a, keeps R (k a)) -> keeps R (bind m k).
Proof. intros Hm Hk. eapply hoare_bind; [exact Hm|]. intros a _. apply Hk. Qed.

Lemma keeps_try {A} (m : M A) cls h :
  keeps R m -> (forall e, keeps R (h e)) -> keeps R (try_except m cls h).
Proof. intros Hm Hh. eapply hoare_try; [exact Hm|auto|exact Hh]. Qed.

Lemma keeps_ret {A} (a : A) : keeps R (ret a).
Proof. apply hoare_ret. exact I. Qed.

Lemma keeps_raise {A} e : keeps R (@raise A e).
Proof. apply hoare_raise. Qed.

Lemma keeps_get {A} (f : world -> A) : keeps R (get f).
Proof. apply hoare_get. auto. Qed.

Lemma keeps_lift {A} (o : outcome A) : keeps R (lift o).
Proof. apply hoare_lift. auto. Qed.

Lemma keeps_modify f : (forall w, R w (f w)) -> keeps R (modify f).
Proof. intros H. apply hoare_modify; auto. Qed.

Lemma keeps_subscript {A} (v : option A) : keeps R (subscript v).
Proof. destruct v; [apply keeps_ret|apply keeps_raise]. Qed.

End Hoare.

Section Kept.
Context `{Tools}.
Variable T : pystr.
Variables E D : pystr -> Prop.

#[global] Instance kept_preorder : PreOrder (kept T E D).
Proof.
  split.
  - intros w. split; [reflexivity|reflexivity|auto|].
    intros p _. exists 0%nat. simpl. split; [auto|].
    destruct (files w !! p); reflexivity.
  - intros w1 w2 w3 [Hr1 Ho1 Hn1 Hf1] [Hr2 Ho2 Hn2 Hf2].
    split.
    + congruence.
    + etransitivity; eassumption.
    + intros d Hd. destruct (Hn2 d Hd) as [Hd2|]; auto.
    + intros p Hp. destruct (Hf1 p Hp) as [n1 [Hn1' He1]].
      destruct (Hf2 p Hp) as [n2 [Hn2' He2]].
      exists (n2 + n1)%nat. split.
      * destruct Hn1' as [->|], Hn2' as [->|]; auto.
      * rewrite He2, He1. destruct (files w1 !! p); simpl; [|reflexivity].
        rewrite Nat.iter_add. reflexivity.
Qed.

(** A change of the trace by other calls, and of the pending replies. *)
Lemma kept_log e w : is_relocation e = false -> kept T E D w (log_event e w).
Proof.
  intros He. split; simpl; [|reflexivity|auto|].
  - unfold relocations. simpl. rewrite List.filter_app. simpl. rewrite He.
    apply app_nil_r.
  - intros p _. exists 0%nat. split; [auto|].
    simpl. destruct (files w !! p); reflexivity.
Qed.

Lemma kept_same w w' :
  relocations w' = relocations w -> dirs w' = dirs w -> files w' = files w ->
  kept T E D w w'.
Proof.
  intros Hr Hd Hf. split; [exact Hr|rewrite Hd; reflexivity|rewrite Hd; auto|].
  intros p _. exists 0%nat. split; [auto|]. rewrite Hf.
  simpl. destruct (files w !! p); reflexivity.
Qed.

(** A write into the work directory. *)
Lemma kept_write q c w :
  Py.startswith q T = true -> kept T E D w (set_files (<[q := c]>) w).
Proof.
  intros Hq. split; simpl; [reflexivity|reflexivity|auto|].
  intros p Hp. exists 0%nat. split; [auto|].
  rewrite lookup_insert_ne by congruence.
  simpl. destruct (files w !! p); reflexivity.
Qed.

Lemma keeps_litellm_completion model prompt :
  keeps (kept T E D) (litellm_completion model prompt).
Proof.
  intros w. split; [|auto]. unfold litellm_completion. run_all.
  destruct (llm w) as [|[e|r] q]; simpl; apply kept_same; simpl; auto;
    unfold relocations; simpl; rewrite List.filter_app; simpl;
    apply app_nil_r.
Qed.

Lemma keeps_requests_post url messages :
  keeps (kept T E D) (requests_post url messages).
Proof.
  intros w. split; [|auto]. unfold requests_post. run_all.
  destruct (net w) as [|[e|s b] q]; simpl; apply kept_same; simpl; auto;
    unfold relocations; simpl; rewrite List.filter_app; simpl;
    apply app_nil_r.
Qed.

Lemma keeps_log e :
  is_relocation e = false -> keeps (kept T E D) (modify (log_event e)).
Proof. intros He. apply keeps_modify. intros w. apply kept_log, He. Qed.

Lemma keeps_write q c :
  Py.startswith q T = true ->
  keeps (kept T E D) (modify (set_files (<[q := c]>))).
Proof. intros Hq. apply keeps_modify. intros w. apply kept_write, Hq. Qed.

End Kept.

(** ** Paths of the work directory *)

Lemma startswith_app a x : Py.startswith (a ++ x) a = true.
Proof.
  induction a as [|c a IH]; simpl; [destruct x; reflexivity|].
  rewrite Z.eqb_refl. exact IH.
Qed.

Lemma startswith_app_r p s a :
  Py.startswith p a = true -> Py.startswith (p ++ s) a = true.
Proof.
  revert p. induction a as [|c a IH]; intros p; [destruct (p ++ s); reflexivity|].
  destruct p as [|x p]; simpl; [discriminate|].
  intros Hp. apply andb_true_iff in Hp as [-> Hp]. simpl. auto.
Qed.

Lemma startswith_nil p : Py.startswith p [] = true.
Proof. destruct p; reflexivity. Qed.

Lemma startswith_refl a : Py.startswith a a = true.
Proof. pose proof (startswith_app a []) as H. rewrite app_nil_r in H. exact H. Qed.

Lemma join_startswith a b :
  head b <> Some Py.SEP -> Py.startswith (Py.join a b) a = true.
Proof.
  intros Hb. unfold Py.join. destruct b as [|c b].
  - destruct (last a) as [l|] eqn:El.
    + destruct (l =? Py.SEP); [apply startswith_refl|apply startswith_app].
    + apply last_None in El. subst a. reflexivity.
  - destruct (Z.eqb_spec c Py.SEP) as [->|_]; [exfalso; apply Hb; reflexivity|].
    destruct (last a) as [l|] eqn:El.
    + destruct (l =? Py.SEP); apply startswith_app.
    + apply last_None in El. subst a. reflexivity.
Qed.

Lemma rfind_from_after i c s :
  0 <= i -> c ∉ drop (Z.to_nat (Py.rfind_from i c s - i + 1)) s.
Proof.
  revert i. induction s as [|x s IH]; intros i Hi; simpl.
  { rewrite drop_nil. apply not_elem_of_nil. }
  specialize (IH (i + 1) ltac:(lia)).
  destruct (rfind_from_range (i + 1) c s) as [Hr|Hr].
  - rewrite Hr in *. simpl.
    replace (Z.to_nat (-1 - (i + 1) + 1)) with 0%nat in IH by lia.
    rewrite drop_0 in IH.
    destruct (Z.eqb_spec x c) as [->|Hx].
    + replace (Z.to_nat (i - i + 1)) with 1%nat by lia. exact IH.
    + replace (Z.to_nat (-1 - i + 1)) with 0%nat by lia.
      rewrite drop_0. intros Hc. apply elem_of_cons in Hc as [Hc|Hc]; auto.
  - replace (0 <=? Py.rfind_from (i + 1) c s) with true
      by (symmetry; apply Z.leb_le; lia).
    replace (Z.to_nat (Py.rfind_from (i + 1) c s - i + 1))
      with (S (Z.to_nat (Py.rfind_from (i + 1) c s - (i + 1) + 1))) by lia.
    exact IH.
Qed.

Lemma basename_no_sep p : Py.SEP ∉ Py.basename p.
Proof.
  unfold Py.basename, Py.slice_from, Py.rfind.
  pose proof (rfind_from_after 0 Py.SEP p ltac:(lia)) as H.
  replace (Py.rfind_from 0 Py.SEP p - 0 + 1)
    with (Py.rfind_from 0 Py.SEP p + 1) in H by lia.
  exact H.
Qed.

Lemma strip_prefix_app t s r : Os.strip_prefix t s = Some r -> s = t ++ r.
Proof.
  revert s. induction t as [|y t IH]; intros s; simpl.
  - intros [= ->]. reflexivity.
  - destruct s as [|x s]; [discriminate|].
    destruct (Z.eqb_spec x y) as [->|]; [|discriminate].
    intros Hs. rewrite (IH _ Hs). reflexivity.
Qed.

Lemma entry_name_inv d p n :
  Os.entry_name d p = Some n ->
  p = d ++ Py.SEP :: n /\ n <> [] /\ Py.SEP ∉ n.
Proof.
  unfold Os.entry_name.
  destruct (Os.strip_prefix (d ++ [Py.SEP]) p) as [[|c r]|] eqn:Es;
    try discriminate.
  destruct (bool_decide (Py.SEP ∈ c :: r)) eqn:Eb; [discriminate|].
  intros [= <-]. apply strip_prefix_app in Es.
  rewrite <- app_assoc in Es. split; [exact Es|].
  split; [discriminate|]. apply bool_decide_eq_false in Eb. exact Eb.
Qed.

Lemma entries_inv d w n :
  n ∈ Os.entries d w ->
  (d ++ Py.SEP :: n) ∈ dom (files w) ∪ dirs w /\ n <> [] /\ Py.SEP ∉ n.
Proof.
  unfold Os.entries. rewrite list_elem_of_omap.
  intros [p [Hp Hn]]. apply entry_name_inv in Hn as [-> [Hne Hs]].
  apply elem_of_elements in Hp. auto.
Qed.

Lemma no_sep_relative n : Py.SEP ∉ n -> relative n.
Proof.
  intros Hn Hh. destruct n as [|c n]; [discriminate|].
  injection Hh as ->. apply Hn. left.
Qed.

Lemma relative_app n s : n <> [] -> relative n -> relative (n ++ s).
Proof. destruct n; [congruence|auto]. Qed.

Lemma Forall_filter {A} (P : A -> Prop) f (l : list A) :
  Forall P l -> Forall P (List.filter f l).
Proof.
  induction 1 as [|x l Hx Hl IH]; simpl; [constructor|].
  destruct (f x); [constructor|]; assumption.
Qed.

Lemma Forall_sorted (P : pystr -> Prop) l : Forall P l -> Forall P (sorted l).
Proof.
  intros Hl. unfold sorted.
  eapply Permutation_Forall; [|exact Hl].
  symmetry. apply merge_sort_Permutation.
Qed.

Lemma basename_suffix_relative b s :
  relative s -> relative (Py.basename b ++ s).
Proof.
  intros Hs. pose proof (basename_no_sep b) as Hb.
  destruct (Py.basename b) as [|c r]; [exact Hs|].
  apply no_sep_relative in Hb. exact Hb.
Qed.

Ltac inst := try (solve [apply _]).
Tactic Notation "rule" constr(l) := (apply l; inst).
Tactic Notation "erule" open_constr(l) := (eapply l; inst).

Section KeptOcr.
Context `{Tools}.
Variable self : Self.
Variables E D : pystr -> Prop.

Local Abbreviation workdir := (ai_rename_dir self).
Local Abbreviation calm := (kept (ai_rename_dir self) E D).

Lemma write_pages_outside (prefix : pystr) (i : nat) (pages : list content)
    (f : gmap pystr content) (p : pystr) :
  Py.startswith prefix workdir = true -> Py.startswith p workdir = false ->
  write_pages prefix i pages f !! p = f !! p.
Proof.
  intros Hpre Hp. revert i f.
  induction pages as [|c r IH]; intros i f; simpl; [reflexivity|].
  rewrite IH. apply lookup_insert_ne. intros <-.
  rewrite startswith_app_r in Hp by exact Hpre. discriminate.
Qed.

Lemma keeps_rasterize src prefix :
  Py.startswith prefix workdir = true -> keeps calm (rasterize src prefix).
Proof.
  intros Hpre. unfold rasterize.
  rule keeps_bind; [apply keeps_log; reflexivity|]. intros _.
  rule keeps_bind; [rule keeps_get|]. intros [c|]; [|rule keeps_ret].
  rule keeps_modify. intros w.
  split; simpl; [reflexivity|reflexivity|auto|].
  intros p Hp. exists 0%nat. split; [auto|].
  rewrite write_pages_outside by assumption.
  simpl. destruct (files w !! p); reflexivity.
Qed.

Lemma keeps_mogrify path :
  Py.startswith path workdir = true \/ E path -> keeps calm (mogrify path).
Proof.
  intros Hpath w. split; [|auto]. unfold mogrify, bind, modify, get. simpl.
  change (files (log_event (Enhance path) w)) with (files w).
  destruct (files w !! path) as [c|] eqn:Ec; simpl;
    [|apply kept_log; reflexivity].
  etransitivity; [apply (kept_log workdir E D (Enhance path)); reflexivity|].
  split; simpl; [reflexivity|reflexivity|auto|].
  intros p Hp. destruct (decide (p = path)) as [->|Hne].
  - exists 1%nat. split; [right; destruct Hpath; [congruence|assumption]|].
    rewrite lookup_insert_eq, Ec. reflexivity.
  - exists 0%nat. split; [auto|]. rewrite lookup_insert_ne by congruence.
    simpl. destruct (files w !! p); reflexivity.
Qed.

Lemma keeps_binarize src dst :
  Py.startswith dst workdir = true -> keeps calm (binarize src dst).
Proof.
  intros Hdst. unfold binarize.
  rule keeps_bind; [apply keeps_log; reflexivity|]. intros _.
  rule keeps_bind; [rule keeps_get|]. intros c.
  destruct (c ≫= threshold); [|rule keeps_ret].
  apply keeps_write, Hdst.
Qed.

Lemma keeps_tesseract_text image lang : keeps calm (tesseract_text image lang).
Proof.
  unfold tesseract_text.
  rule keeps_bind; [apply keeps_log; reflexivity|]. intros _.
  rule keeps_bind; [rule keeps_get|]. intros [c|]; [|rule keeps_raise].
  destruct (stdout _); [|rule keeps_raise].
  destruct (exit_zero _); [rule keeps_ret|rule keeps_raise].
Qed.

Lemma keeps_tesseract_lossy image lang : keeps calm (tesseract_lossy image lang).
Proof.
  unfold tesseract_lossy.
  rule keeps_bind; [apply keeps_log; reflexivity|]. intros _.
  rule keeps_bind; [rule keeps_get|]. intros [c|]; [|rule keeps_raise].
  destruct (exit_zero _); [rule keeps_ret|rule keeps_raise].
Qed.

Lemma keeps_recognize bw_image :
  keeps calm (FileProcessor.recognize self bw_image).
Proof.
  unfold FileProcessor.recognize.
  rule keeps_bind; [rule keeps_subscript|]. intros lang.
  rule keeps_try.
  - rule keeps_bind; [apply keeps_tesseract_text|]. intros s. rule keeps_ret.
  - intros e. destruct e; try rule keeps_ret;
      (rule keeps_bind; [apply keeps_tesseract_lossy|]; intros s;
       rule keeps_ret).
Qed.

Lemma hoare_listdir d :
  hoare calm (Forall (fun n => n <> [] /\ Py.SEP ∉ n)) (Os.listdir d).
Proof.
  unfold Os.listdir.
  erule hoare_bind; [rule keeps_get|]. intros i _.
  destruct i; [|rule hoare_raise].
  rule hoare_get. intros w. apply Forall_forall. intros n Hn.
  apply entries_inv in Hn. tauto.
Qed.

Lemma hoare_cached_images base_name :
  hoare calm (Forall relative) (FileProcessor.cached_images self base_name).
Proof.
  unfold FileProcessor.cached_images.
  erule hoare_bind; [apply hoare_listdir|]. intros l Hl.
  rule hoare_ret. apply Forall_filter.
  eapply Forall_impl; [exact Hl|]. intros n [_ Hn].
  apply no_sep_relative, Hn.
Qed.

Lemma keeps_ocr_pages images ocr_text :
  Forall relative images ->
  keeps calm (FileProcessor.ocr_pages self images ocr_text).
Proof.
  intros Hi. revert ocr_text.
  induction Hi as [|image rest Himage Hrest IH]; intros ocr_text; simpl;
    [rule keeps_ret|].
  pose proof (join_startswith workdir image Himage) as Hpage.
  rule keeps_bind; [rule keeps_get|]. intros e.
  rule keeps_bind.
  { destruct e; [rule keeps_ret|].
    rule keeps_bind; [apply keeps_mogrify; left; exact Hpage|]. intros _.
    apply keeps_binarize, startswith_app_r, Hpage. }
  intros _. rule keeps_bind; [apply keeps_recognize|]. intros r. apply IH.
Qed.

Lemma keeps_perform_pdf_ocr file_path :
  keeps calm (FileProcessor.perform_pdf_ocr self file_path).
Proof.
  unfold FileProcessor.perform_pdf_ocr.
  erule hoare_bind; [apply hoare_cached_images|]. intros cached Hc.
  erule (hoare_bind calm (Forall relative)).
  - destruct cached; [|rule hoare_ret; exact Hc].
    erule hoare_bind; [|intros _ _; apply hoare_cached_images].
    apply keeps_rasterize, startswith_app.
  - intros cached' Hc'. apply keeps_ocr_pages, Forall_sorted, Hc'.
Qed.

Lemma keeps_perform_image_ocr file_path :
  Py.startswith file_path workdir = true \/ E file_path ->
  keeps calm (FileProcessor.perform_image_ocr self file_path).
Proof.
  intros Hsrc. unfold FileProcessor.perform_image_ocr.
  assert (Hbw : Py.startswith
            (Py.join workdir (Py.basename (Py.splitext file_path).1 ++ py "_bw.png"))
            workdir = true).
  { apply join_startswith, basename_suffix_relative. discriminate. }
  rule keeps_bind; [rule keeps_get|]. intros e.
  rule keeps_bind.
  { destruct e; [rule keeps_ret|].
    rule keeps_bind; [apply keeps_mogrify, Hsrc|]. intros _.
    apply keeps_binarize, Hbw. }
  intros _. rule keeps_bind; [apply keeps_recognize|]. intros r.
  rule keeps_ret.
Qed.

Lemma keeps_perform_ocr file_path :
  has_extension file_path (py ".pdf") = true
  \/ Py.startswith file_path workdir = true \/ E file_path ->
  keeps calm (FileProcessor.perform_ocr self file_path).
Proof.
  intros Hsrc. unfold FileProcessor.perform_ocr.
  rule keeps_bind; [|intros; rule keeps_ret].
  destruct (has_extension file_path (py ".pdf")).
  { apply keeps_perform_pdf_ocr. }
  destruct (_ || _); [|rule keeps_ret].
  apply keeps_perform_image_ocr. destruct Hsrc as [?|?]; [discriminate|auto].
Qed.

End KeptOcr.
